(** * Project-portfolio dashboard: notes mini-format, EVM indicators, SQLite store

    A shallow embedding of the parts of the dashboard that carry its
    data-level behaviour:

    - [app.py]: [extract_excel_row_data], [get_closest_monthly_value];
    - [excel_exporter.py]: [extract_from_notes], the notes f-string and the
      control skeleton of [import_project_template];
    - [data_manager.py]: the SQLite tables with [add_project],
      [get_project_info], [get_all_projects], [add_progress_data],
      [get_progress_data], [clear_all_data], [clear_original_excel_files];
    - [evm_calculator.py]: [calculate_project_kpi],
      [_determine_project_status], [calculate_portfolio_kpi].

    Python [str] values are lists of Unicode code points, Python dicts are
    finite maps, SQLite tables are lists of rows in rowid order, exceptions
    are [None] results at the place where the source catches them.  Python
    floats are idealised: a finite float is an exact rational, so rounding
    is not modelled. *)

From Stdlib Require Import QArith Qabs Ascii String DecimalString.
From stdpp Require Import base list sorting gmap strings.

Local Open Scope Z_scope.
Local Open Scope nat_scope.

(** ** Python [str] *)
Module PyStr.

(** A Python string: its sequence of code points. *)
Definition pystr : Type := list N.

(** Code points of a UTF-8 byte sequence (used for literals only). *)
Fixpoint utf8 (bs : list N) : pystr :=
  match bs with
  | [] => []
  | b :: r =>
      if (b <? 128)%N then b :: utf8 r
      else if (b <? 224)%N then
        match r with
        | c1 :: r' => ((b - 192) * 64 + (c1 - 128))%N :: utf8 r'
        | _ => []
        end
      else if (b <? 240)%N then
        match r with
        | c1 :: c2 :: r' =>
            ((b - 224) * 4096 + (c1 - 128) * 64 + (c2 - 128))%N :: utf8 r'
        | _ => []
        end
      else
        match r with
        | c1 :: c2 :: c3 :: r' =>
            ((b - 240) * 262144 + (c1 - 128) * 4096
             + (c2 - 128) * 64 + (c3 - 128))%N :: utf8 r'
        | _ => []
        end
  end.

Fixpoint bytes_of (s : string) : list N :=
  match s with
  | EmptyString => []
  | String a r => N_of_ascii a :: bytes_of r
  end.

(** The Python literal written as [s] in the source. *)
Definition py (s : string) : pystr := utf8 (bytes_of s).

Definition str_eqb (s t : pystr) : bool := bool_decide (s = t).

(** [x in words] for a list of strings. *)
Definition str_in (s : pystr) (words : list pystr) : bool :=
  existsb (str_eqb s) words.

(** Characters removed by [str.strip()]: the Unicode white space. *)
Definition is_space (c : N) : bool :=
  ((9 <=? c) && (c <=? 13) || (28 <=? c) && (c <=? 32)
   || (c =? 133) || (c =? 160) || (c =? 5760)
   || (8192 <=? c) && (c <=? 8202)
   || (c =? 8232) || (c =? 8233) || (c =? 8239) || (c =? 8287)
   || (c =? 12288))%N.

Fixpoint str_lstrip (s : pystr) : pystr :=
  match s with
  | [] => []
  | c :: r => if is_space c then str_lstrip r else s
  end.

Definition str_rstrip (s : pystr) : pystr := reverse (str_lstrip (reverse s)).

Definition str_strip (s : pystr) : pystr := str_rstrip (str_lstrip s).

(** [s.startswith(p)] *)
Fixpoint str_startswith (p s : pystr) : bool :=
  match p, s with
  | [], _ => true
  | _ :: _, [] => false
  | a :: p', b :: s' => (a =? b)%N && str_startswith p' s'
  end.

(** [s.find(sub)]: the lowest index where [sub] occurs, [None] for -1. *)
Fixpoint str_find (sub s : pystr) : option nat :=
  if str_startswith sub s then Some 0
  else match s with
       | [] => None
       | _ :: r => S <$> str_find sub r
       end.

(** [s.find(sub, start)] for [start <= len(s)]. *)
Definition str_find_from (sub s : pystr) (start : nat) : option nat :=
  (λ i, start + i) <$> str_find sub (drop start s).

(** [sub in s] *)
Definition str_contains (sub s : pystr) : bool :=
  match str_find sub s with Some _ => true | None => false end.

(** [s[a:b]] for [0 <= a <= b]. *)
Definition str_slice (s : pystr) (a b : nat) : pystr := take (b - a) (drop a s).

(** [s.replace(old, new)] for a non-empty [old]: occurrences are replaced
    left to right without overlap; [skip] counts the characters of a
    matched occurrence still to be dropped. *)
Fixpoint str_replace_go (old new : pystr) (skip : nat) (s : pystr) : pystr :=
  match s with
  | [] => []
  | c :: r =>
      match skip with
      | S k => str_replace_go old new k r
      | O =>
          if str_startswith old s
          then new ++ str_replace_go old new (length old - 1) r
          else c :: str_replace_go old new 0 r
      end
  end.

Definition str_replace (old new s : pystr) : pystr := str_replace_go old new 0 s.



(** [str.lower()] on its ASCII part.  The source only tests the lowered
    text for membership in fixed word lists, and no character outside
    A-Z lowercases to a character of those words, so these tests are
    decided as in Python. *)
Definition lower_char (c : N) : N :=
  if ((65 <=? c) && (c <=? 90))%N then (c + 32)%N else c.

Definition str_lower (s : pystr) : pystr := map lower_char s.

(** [str(n)] for an [int]. *)
Definition digit_char (d : N) : N := (48 + d)%N.

Fixpoint uint_chars (u : Decimal.uint) : pystr :=
  match u with
  | Decimal.Nil => []
  | Decimal.D0 r => digit_char 0 :: uint_chars r
  | Decimal.D1 r => digit_char 1 :: uint_chars r
  | Decimal.D2 r => digit_char 2 :: uint_chars r
  | Decimal.D3 r => digit_char 3 :: uint_chars r
  | Decimal.D4 r => digit_char 4 :: uint_chars r
  | Decimal.D5 r => digit_char 5 :: uint_chars r
  | Decimal.D6 r => digit_char 6 :: uint_chars r
  | Decimal.D7 r => digit_char 7 :: uint_chars r
  | Decimal.D8 r => digit_char 8 :: uint_chars r
  | Decimal.D9 r => digit_char 9 :: uint_chars r
  end.

Definition str_of_int (z : Z) : pystr :=
  match Z.to_int z with
  | Decimal.Pos u => uint_chars u
  | Decimal.Neg u => 45%N :: uint_chars u
  end.

End PyStr.
Export PyStr.

(** ** Python values and built-ins *)
Module PyVal.

(** A Python [float], idealised: finite values are exact rationals. *)
Inductive pyfloat : Type :=
| Finite (q : Q)
| Inf (negative : bool)
| NaN.

(** [abs(x)] *)
Definition float_abs (x : pyfloat) : pyfloat :=
  match x with
  | Finite q => Finite (Qabs q)
  | Inf _ => Inf false
  | NaN => NaN
  end.

(** [x > q] for a finite constant [q]. *)
Definition float_gt (x : pyfloat) (q : Q) : bool :=
  match x with
  | Finite a => negb (Qle_bool a q)
  | Inf negative => negb negative
  | NaN => false
  end.

(** [x == 0] *)
Definition float_is_zero (x : pyfloat) : bool :=
  match x with
  | Finite a => Qeq_bool a 0
  | _ => false
  end.

(** A [datetime.date]. *)
Record date : Type := Date { year : Z; month : Z; day : Z }.

(** What [extract_excel_row_data] returns when it is not [None]. *)
Inductive pyval : Type :=
| VFloat (x : pyfloat)
| VStr (s : pystr).

(** The library functions the decoders call.  They are kept abstract:
    every result below holds whatever these functions answer.
    - [float_of_str s] is [float(s)], [None] when it raises ValueError;
    - [str_isdigit s] is [s.isdigit()];
    - [strptime_ymd s] is [datetime.strptime(s, '%Y-%m-%d').date()],
      [None] when it raises ValueError. *)
Class PyBuiltins : Type := {
  float_of_str : pystr → option pyfloat;
  str_isdigit : pystr → bool;
  strptime_ymd : pystr → option date
}.

End PyVal.
Export PyVal.

(** ** The notes mini-format: [R<row>:<value>|R<row>:<value>|...] *)
Module Notes.
Section Decoders.
Context `{PyBuiltins}.

Definition empty_symbols : list pystr :=
  [py "-"; py "—"; py "–"; py "_"; py "n/a"; py "na";
   py "غير متوفر"; py "لا يوجد"; py "فارغ"].

Definition arabic_to_english : list (pystr * pystr) :=
  [(py "٠", py "0"); (py "١", py "1"); (py "٢", py "2"); (py "٣", py "3");
   (py "٤", py "4"); (py "٥", py "5"); (py "٦", py "6"); (py "٧", py "7");
   (py "٨", py "8"); (py "٩", py "9")].

(** [f"R{row_number}:"] *)
Definition row_key (row_number : Z) : pystr :=
  py "R" ++ str_of_int row_number ++ py ":".

(** The date-row branch (rows 17 and 20) of [extract_excel_row_data]. *)
Definition decode_date_value (value_str : pystr) : option pyval :=
  if str_contains (py "-") value_str && (10 <=? length value_str)
  then Some (VStr value_str)
  else if str_eqb value_str (py "0") || str_eqb value_str (py "0.0")
  then None
  else if str_isdigit
            (str_replace (py "-") [] (str_replace (py ".") [] value_str))
  then match float_of_str value_str with
       | Some date_serial =>
           if float_gt date_serial 40000 then Some (VFloat date_serial)
           else None
       | None => None
       end
  else None.

(** The numeric branch of [extract_excel_row_data]. *)
Definition decode_number_value (value_str : pystr) : option pyval :=
  let value_str := str_strip value_str in
  if str_in (str_lower value_str) empty_symbols
     || str_in value_str empty_symbols
  then Some (VFloat (Finite 0))
  else
    let value_str :=
      str_replace (py " ") []
        (str_replace (py "٬") [] (str_replace (py ",") [] value_str)) in
    if str_contains (py "%") value_str
    then VFloat <$> float_of_str (str_strip (str_replace (py "%") [] value_str))
    else
      let value_str :=
        foldl (λ s ae, str_replace ae.1 ae.2 s) value_str arabic_to_english in
      match float_of_str value_str with
      | Some result =>
          if float_gt (float_abs result) (inject_Z (10 ^ 15)) then None
          else Some (VFloat result)
      | None => None
      end.

(** [extract_excel_row_data(notes_str, row_number)] of app.py, for a
    [str] argument. *)
Definition extract_excel_row_data (notes_str : pystr) (row_number : Z)
  : option pyval :=
  match notes_str with
  | [] => None
  | _ =>
      let notes_str := str_strip notes_str in
      let row_key := row_key row_number in
      match str_find row_key notes_str with
      | None => None
      | Some found =>
          let start_idx := found + length row_key in
          let end_idx :=
            match str_find_from (py "|") notes_str start_idx with
            | Some e => e
            | None => length notes_str
            end in
          let value_str :=
            str_strip (str_slice notes_str start_idx end_idx) in
          if bool_decide (value_str = [])
             || str_in (str_lower value_str)
                  [py ""; py "null"; py "none"; py "nan"]
          then None
          else if bool_decide (row_number = 17%Z ∨ row_number = 20%Z)
          then decode_date_value value_str
          else decode_number_value value_str
      end
  end.


(** The two halves of [extract_excel_row_data], named for the proofs: the
    text found under a key, and what is made of that text. *)
Definition value_text (notes_str key : pystr) : option pystr :=
  match str_find key notes_str with
  | None => None
  | Some found =>
      let start_idx := found + length key in
      let end_idx :=
        match str_find_from (py "|") notes_str start_idx with
        | Some e => e
        | None => length notes_str
        end in
      Some (str_strip (str_slice notes_str start_idx end_idx))
  end.

Definition decode_value (row_number : Z) (value_str : pystr)
  : option pyval :=
  if bool_decide (value_str = [])
     || str_in (str_lower value_str) [py ""; py "null"; py "none"; py "nan"]
  then None
  else if bool_decide (row_number = 17%Z ∨ row_number = 20%Z)
  then decode_date_value value_str
  else decode_number_value value_str.

End Decoders.

(** The thirteen values interpolated into the notes f-string of
    [import_project_template], each already formatted by [str()]. *)
Record note_fields : Type := NoteFields {
  planned_total_cost : pystr;        (* R7 *)
  cumulative_budgeted_cost : pystr;  (* R8 *)
  planned_daily_percent : pystr;     (* R9 *)
  cumulative_daily_percent : pystr;  (* R10 *)
  elapsed_percent : pystr;           (* R11 *)
  elapsed_period : pystr;            (* R12 *)
  actual_cost : pystr;               (* R13 *)
  weekly_date : pystr;               (* R17 *)
  weekly_manpower : pystr;           (* R18 *)
  weekly_equipment : pystr;          (* R19 *)
  monthly_date : pystr;              (* R20 *)
  monthly_manpower : pystr;          (* R21 *)
  monthly_equipment : pystr          (* R22 *)
}.

(** The ['notes'] f-string of [import_project_template]. *)
Definition notes_fstring (f : note_fields) : pystr :=
  py "R7:" ++ planned_total_cost f ++
  py "|R8:" ++ cumulative_budgeted_cost f ++
  py "|R9:" ++ planned_daily_percent f ++
  py "|R10:" ++ cumulative_daily_percent f ++
  py "|R11:" ++ elapsed_percent f ++
  py "|R12:" ++ elapsed_period f ++
  py "|R13:" ++ actual_cost f ++
  py "|R17:" ++ weekly_date f ++
  py "|R18:" ++ weekly_manpower f ++
  py "|R19:" ++ weekly_equipment f ++
  py "|R20:" ++ monthly_date f ++
  py "|R21:" ++ monthly_manpower f ++
  py "|R22:" ++ monthly_equipment f.

(** The value text stored under [R<row>]. *)
Definition field_of (row : Z) (f : note_fields) : option pystr :=
  match row with
  | 7 => Some (planned_total_cost f)
  | 8 => Some (cumulative_budgeted_cost f)
  | 9 => Some (planned_daily_percent f)
  | 10 => Some (cumulative_daily_percent f)
  | 11 => Some (elapsed_percent f)
  | 12 => Some (elapsed_period f)
  | 13 => Some (actual_cost f)
  | 17 => Some (weekly_date f)
  | 18 => Some (weekly_manpower f)
  | 19 => Some (weekly_equipment f)
  | 20 => Some (monthly_date f)
  | 21 => Some (monthly_manpower f)
  | 22 => Some (monthly_equipment f)
  | _ => None
  end%Z.

Definition fields_list (f : note_fields) : list pystr :=
  [planned_total_cost f; cumulative_budgeted_cost f;
   planned_daily_percent f; cumulative_daily_percent f; elapsed_percent f;
   elapsed_period f; actual_cost f; weekly_date f; weekly_manpower f;
   weekly_equipment f; monthly_date f; monthly_manpower f;
   monthly_equipment f].

(** The mini-format in general: [R<row>:<value>] items joined by ["|"]. *)
Fixpoint notes_format (items : list (Z * pystr)) : pystr :=
  match items with
  | [] => []
  | (row, value) :: rest =>
      match rest with
      | [] => row_key row ++ value
      | _ => row_key row ++ value ++ 124%N :: notes_format rest
      end
  end.

Definition fields_items (f : note_fields) : list (Z * pystr) :=
  [(7, planned_total_cost f); (8, cumulative_budgeted_cost f);
   (9, planned_daily_percent f); (10, cumulative_daily_percent f);
   (11, elapsed_percent f); (12, elapsed_period f); (13, actual_cost f);
   (17, weekly_date f); (18, weekly_manpower f); (19, weekly_equipment f);
   (20, monthly_date f); (21, monthly_manpower f);
   (22, monthly_equipment f)]%Z.

(** The value of the first item with key [row]. *)
Fixpoint item_value (row : Z) (items : list (Z * pystr)) : option pystr :=
  match items with
  | [] => None
  | (k, v) :: rest => if (k =? row)%Z then Some v else item_value row rest
  end.

(** Two strings differ at a position that both have. *)
Fixpoint differ (p a : pystr) : bool :=
  match p, a with
  | x :: p', y :: a' => negb (x =? y)%N || differ p' a'
  | _, _ => false
  end.

(** Every key other than that of [row] differs from it, and has its only
    [R] in front. *)
Definition keys_apart (row : Z) (items : list (Z * pystr)) : bool :=
  forallb (λ kv : Z * pystr,
             (kv.1 =? row)%Z
             || differ (row_key row) (row_key kv.1)
                && forallb (λ c, negb (c =? 82)%N) (tail (row_key kv.1)))
    items.

(** The characters of the text of a finite number: digits, ['.'], ['e'],
    ['+'] and ['-']. *)
Definition numeric_char (c : N) : bool :=
  ((48 <=? c) && (c <=? 57) || (c =? 46) || (c =? 101) || (c =? 43)
   || (c =? 45))%N.

(** A non-empty text of such characters other than a lone ['-']. *)
Definition numeric_text (s : pystr) : bool :=
  negb (str_eqb s []) && negb (str_eqb s (py "-")) && forallb numeric_char s.

(** No ['R'] in a text. *)
Definition no_R (s : pystr) : bool := forallb (λ c, negb (c =? 82)%N) s.

End Notes.
Export Notes.

(** ** Calendar arithmetic of [datetime.date] *)
Module Calendar.
Local Open Scope Z_scope.

Definition is_leap (y : Z) : bool :=
  (y mod 4 =? 0) && (negb (y mod 100 =? 0) || (y mod 400 =? 0)).

Definition days_before_year (y : Z) : Z :=
  let y := y - 1 in y * 365 + y / 4 - y / 100 + y / 400.

Definition days_in_month_table (m : Z) : Z :=
  match m with
  | 1 => 31 | 2 => 28 | 3 => 31 | 4 => 30 | 5 => 31 | 6 => 30
  | 7 => 31 | 8 => 31 | 9 => 30 | 10 => 31 | 11 => 30 | 12 => 31
  | _ => -1
  end.

Definition days_before_month_table (m : Z) : Z :=
  match m with
  | 1 => 0 | 2 => 31 | 3 => 59 | 4 => 90 | 5 => 120 | 6 => 151
  | 7 => 181 | 8 => 212 | 9 => 243 | 10 => 273 | 11 => 304 | 12 => 334
  | _ => -1
  end.

Definition days_in_month (y m : Z) : Z :=
  if (m =? 2) && is_leap y then 29 else days_in_month_table m.

Definition days_before_month (y m : Z) : Z :=
  days_before_month_table m + (if (2 <? m) && is_leap y then 1 else 0).

(** [d.toordinal()] *)
Definition toordinal (d : date) : Z :=
  days_before_year (year d) + days_before_month (year d) (month d) + day d.

Definition max_ordinal : Z := 3652059.

(** [date.fromordinal(n)] for [1 <= n <= max_ordinal]. *)
Definition fromordinal (n : Z) : date :=
  let n := n - 1 in
  let n400 := n / 146097 in
  let n := n mod 146097 in
  let y := n400 * 400 + 1 in
  let n100 := n / 36524 in
  let n := n mod 36524 in
  let n4 := n / 1461 in
  let n := n mod 1461 in
  let n1 := n / 365 in
  let n := n mod 365 in
  let y := y + n100 * 100 + n4 * 4 + n1 in
  if (n1 =? 4) || (n100 =? 4) then Date (y - 1) 12 31
  else
    let leapyear := (n1 =? 3) && (negb (n4 =? 24) || (n100 =? 3)) in
    let m := Z.shiftr (n + 50) 5 in
    let preceding :=
      days_before_month_table m + (if (2 <? m) && leapyear then 1 else 0) in
    if n <? preceding then
      let m := m - 1 in
      let preceding :=
        preceding
        - (days_in_month_table m + (if (m =? 2) && leapyear then 1 else 0)) in
      Date y m (n - preceding + 1)
    else Date y m (n - preceding + 1).

(** [d + timedelta(days=k)]; [None] is OverflowError. *)
Definition add_days (d : date) (k : Z) : option date :=
  let o := toordinal d + k in
  if (1 <=? o) && (o <=? max_ordinal) then Some (fromordinal o) else None.

(** [period_start + (period_end - period_start) / 2]: the division
    leaves half days behind, which the date addition ignores. *)
Definition midpoint (period_start period_end : date) : option date :=
  add_days period_start ((toordinal period_end - toordinal period_start) / 2).

(** [a > b] on dates. *)
Definition date_gt (a b : date) : bool :=
  (year b <? year a)
  || (year b =? year a)
     && ((month b <? month a) || (month b =? month a) && (day b <? day a)).

Definition same_month (a b : date) : bool :=
  (year a =? year b) && (month a =? month b).

(** [abs((t.year - d.year) * 12 + (t.month - d.month))] *)
Definition month_distance (t d : date) : Z :=
  Z.abs ((year t - year d) * 12 + (month t - month d)).

End Calendar.
Export Calendar.

(** ** Date-nearest-match lookup of app.py *)
Module Closest.
Section Lookup.
Context `{PyBuiltins}.
Local Open Scope Z_scope.

(** The [entry_date] cell of a DataFrame row. *)
Inductive entry_date_cell : Type :=
| EDMissing                (* absent, None or NaN *)
| EDStr (s : pystr)        (* a string, as SQLite returns it *)
| EDDate (d : date).       (* a date or Timestamp object *)

(** The columns of a progress row that the lookup reads. *)
Record progress_row : Type := ProgressRow {
  row_notes : option pystr;          (* [None]: NULL / NaN *)
  row_entry_date : entry_date_cell
}.

(** A period end point: a date object or a ['%Y-%m-%d'] string. *)
Inductive period_date : Type :=
| PDate (d : date)
| PStr (s : pystr).

Definition as_date (p : period_date) : option date :=
  match p with
  | PDate d => Some d
  | PStr s => strptime_ymd s
  end.

(** The loop variables; [closest_distance = None] is [float('inf')]. *)
Record loop_state : Type := LoopState {
  closest_value : option pyfloat;
  closest_distance : option Z;
  closest_date : option date
}.

Definition initial_state : loop_state := LoopState None None None.

Inductive step_result : Type :=
| Continue (st : loop_state)
| Break (st : loop_state)
| Raise.

(** The month-matching block, which the source has twice (for the
    [entry_date] fallback and for the date string) with the same text. *)
Definition match_month (target_date : date) (value : pyfloat)
    (actual_date : date) (st : loop_state) : step_result :=
  if same_month target_date actual_date
  then Break (LoopState (Some value) (Some 0) (closest_date st))
  else
    let month_distance := month_distance target_date actual_date in
    let should_update :=
      match closest_distance st with
      | None => true
      | Some cd =>
          if month_distance <? cd then true
          else if month_distance =? cd then
            match closest_date st with
            | Some c => date_gt actual_date c
            | None => false
            end
          else false
      end in
    if should_update
    then Continue (LoopState (Some value) (Some month_distance)
                     (Some actual_date))
    else Continue st.

(** [float(value)] on the decoded value; [None] is ValueError. *)
Definition to_float (v : pyval) : option pyfloat :=
  match v with
  | VFloat x => Some x
  | VStr s => float_of_str s
  end.

(** One iteration of the loop over [progress_data.iterrows()]. *)
Definition row_step (value_row date_row : Z) (target_date : date)
    (row : progress_row) (st : loop_state) : step_result :=
  match row_notes row with
  | None => Continue st
  | Some notes =>
      match extract_excel_row_data notes value_row with
      | None => Continue st
      | Some decoded =>
          match to_float decoded with
          | None => Raise
          | Some value =>
              match extract_excel_row_data notes date_row with
              | None =>
                  match row_entry_date row with
                  | EDMissing => Continue st
                  | EDStr s =>
                      match strptime_ymd s with
                      | Some entry_date =>
                          match_month target_date value entry_date st
                      | None => Continue st
                      end
                  | EDDate entry_date =>
                      match_month target_date value entry_date st
                  end
              | Some (VFloat x) =>
                  if float_is_zero x then
                    match row_entry_date row with
                    | EDMissing => Continue st
                    | EDStr s =>
                        match strptime_ymd s with
                        | Some entry_date =>
                            match_month target_date value entry_date st
                        | None => Continue st
                        end
                    | EDDate entry_date =>
                        match_month target_date value entry_date st
                    end
                  else Continue st
              | Some (VStr s) =>
                  match strptime_ymd s with
                  | Some actual_date =>
                      match_month target_date value actual_date st
                  | None => Continue st
                  end
              end
          end
      end
  end.

(** The loop; [None] when an exception leaves it. *)
Fixpoint run_rows (value_row date_row : Z) (target_date : date)
    (rows : list progress_row) (st : loop_state) : option loop_state :=
  match rows with
  | [] => Some st
  | row :: rest =>
      match row_step value_row date_row target_date row st with
      | Continue st' => run_rows value_row date_row target_date rest st'
      | Break st' => Some st'
      | Raise => None
      end
  end.

(** [get_closest_monthly_value(progress_data, period_start, period_end,
    value_row, date_row)]; the outer [except] returns [None]. *)
Definition get_closest_monthly_value (progress_data : list progress_row)
    (period_start period_end : period_date) (value_row date_row : Z)
  : option pyfloat :=
  match progress_data with
  | [] => None
  | _ =>
      match as_date period_start with
      | None => None
      | Some period_start =>
          match as_date period_end with
          | None => None
          | Some period_end =>
              match midpoint period_start period_end with
              | None => None
              | Some target_date =>
                  match run_rows value_row date_row target_date
                          progress_data initial_state with
                  | Some st => closest_value st
                  | None => None
                  end
              end
          end
      end
  end.

(** *** The entries the lookup chooses among

    The value of a row is its decoded [R<value_row>]; its date is the
    decoded [R<date_row>] date string, or the [entry_date] of the row when
    [R<date_row>] is absent or zero. *)
Definition entry_date_of (row : progress_row) : option date :=
  match row_entry_date row with
  | EDMissing => None
  | EDStr s => strptime_ymd s
  | EDDate d => Some d
  end.

Definition associated_date (date_row : Z) (row : progress_row)
    (notes : pystr) : option date :=
  match extract_excel_row_data notes date_row with
  | None => entry_date_of row
  | Some (VFloat x) => if float_is_zero x then entry_date_of row else None
  | Some (VStr s) => strptime_ymd s
  end.

Definition value_of (value_row : Z) (row : progress_row) : option pyval :=
  row_notes row ≫= λ notes, extract_excel_row_data notes value_row.

Definition entry_of (value_row date_row : Z) (row : progress_row)
  : option (pyfloat * date) :=
  notes ← row_notes row;
  decoded ← extract_excel_row_data notes value_row;
  value ← to_float decoded;
  actual_date ← associated_date date_row row notes;
  Some (value, actual_date).

(** The state holds the best of the entries [es] seen so far: none of
    them lies in the target month, and the recorded entry is nearest in
    months, the latest date among the nearest. *)
Definition best_so_far (t : date) (es : list (option (pyfloat * date)))
    (st : loop_state) : Prop :=
  (∀ x d, Some (x, d) ∈ es → same_month t d = false)
  ∧ match closest_distance st with
    | None =>
        closest_value st = None ∧ closest_date st = None
        ∧ ∀ e, e ∈ es → e = None
    | Some cd =>
        ∃ x d, Some (x, d) ∈ es
               ∧ closest_value st = Some x ∧ closest_date st = Some d
               ∧ cd = month_distance t d
               ∧ ∀ x' d', Some (x', d') ∈ es →
                   cd < month_distance t d'
                   ∨ (cd = month_distance t d' ∧ date_gt d' d = false)
    end.

End Lookup.
End Closest.
Export Closest.

(** ** The SQLite store of data_manager.py *)
Module Store.

(** A value held in a table cell, or bound to a [?] parameter. *)
Inductive sqlval : Type :=
| SNull
| SInt (z : Z)
| SReal (q : Q)
| SText (s : pystr).

#[global] Instance sqlval_inhabited : Inhabited sqlval := populate SNull.

(** A table row or a Python dict of column values. *)
Abbreviation record := (gmap string sqlval).

(** [d[key]]: the value, [None] for KeyError. *)
Definition getitem (d : record) (key : string) : option sqlval := d !! key.

(** [d.get(key, dflt)] *)
Definition get_default (d : record) (key : string) (dflt : sqlval) : sqlval :=
  default dflt (d !! key).

(** The value of a column in a stored row; unset columns are NULL. *)
Definition cell (r : record) (col : string) : sqlval :=
  default SNull (r !! col).

(** The entries of [progress_data]: the REAL columns hold numbers, as
    every caller of [add_progress_data] stores them. *)
Record progress_entry : Type := ProgressEntry {
  pe_project_name : pystr;
  entry_date : sqlval;
  planned_completion : Q;
  planned_cost : Q;
  actual_completion : Q;
  actual_cost : Q;
  notes : sqlval
}.

(** A stored original Excel file. *)
Record excel_file : Type := ExcelFile {
  xf_file_name : pystr;
  xf_file_content : list N;
  xf_projects_imported : pystr;
  xf_file_hash : pystr
}.

(** The database file.  [projects_columns] is the column order of the
    [projects] table, which is what [SELECT *] follows; [projects_seq]
    is its AUTOINCREMENT counter, which deletions never lower. *)
Record db : Type := Db {
  projects_columns : list string;
  projects : list record;
  projects_seq : Z;
  parent_categories : list record;
  progress_data : list progress_entry;
  resources : list record;
  original_excel_files : list excel_file
}.

(** The [projects] columns in the order of the CREATE TABLE statement of
    [init_database], followed by the two columns [migrate_database]
    appends to it. *)
Definition init_database_columns : list string :=
  ["id"; "project_name"; "project_id"; "purchase_order";
   "parent_category_id"; "executing_company"; "consulting_company";
   "start_date"; "end_date"; "total_budget"; "project_location";
   "project_type"; "project_description"; "display_order"; "created_date";
   "contractor_name"; "project_manager"]%string.

(** The four default categories inserted by [init_database]. *)
Definition default_categories : list record :=
  [ {[ "id" := SInt 1; "category_name" := SText (py "Uncategorized");
       "description" :=
         SText (py "Projects not yet assigned to a category") ]};
    {[ "id" := SInt 2; "category_name" := SText (py "Sewerage Projects");
       "description" :=
         SText (py "Water and sewerage infrastructure projects") ]};
    {[ "id" := SInt 3; "category_name" := SText (py "Water Projects");
       "description" :=
         SText (py "Water supply and distribution projects") ]};
    {[ "id" := SInt 4; "category_name" := SText (py "Construction Projects");
       "description" :=
         SText (py "General construction and building projects") ]} ]%string.

(** The database [DataManager()] creates when no file exists yet. *)
Definition init_database : db :=
  Db init_database_columns [] 0 default_categories [] [] [].

(** The columns named by the INSERT of [add_project]. *)
Definition add_project_columns : list string :=
  ["project_name"; "project_id"; "parent_category_id"; "executing_company";
   "consulting_company"; "start_date"; "end_date"; "total_budget";
   "project_location"; "project_type"; "project_description";
   "display_order"; "contractor_name"; "project_manager";
   "created_date"]%string.

(** The parameter tuple of [add_project]; [None] is KeyError. *)
Definition add_project_params (project_data : record)
  : option (list sqlval) :=
  name ← getitem project_data "project_name";
  executing ← getitem project_data "executing_company";
  consulting ← getitem project_data "consulting_company";
  start_date ← getitem project_data "start_date";
  end_date ← getitem project_data "end_date";
  total_budget ← getitem project_data "total_budget";
  location ← getitem project_data "project_location";
  type ← getitem project_data "project_type";
  description ← getitem project_data "project_description";
  created ← getitem project_data "created_date";
  Some [name;
        get_default project_data "project_id" (SText []);
        get_default project_data "parent_category_id" SNull;
        executing; consulting; start_date; end_date; total_budget;
        location; type; description;
        get_default project_data "display_order" (SInt 0);
        get_default project_data "contractor_name" (SText []);
        get_default project_data "project_manager" (SText []);
        created].

(** The row the INSERT of [add_project] creates under the id [id]. *)
Definition new_project_row (id : Z) (params : list sqlval) : record :=
  <["id" := SInt id]> (list_to_map (zip add_project_columns params)).

Definition has_name (name : sqlval) (r : record) : bool :=
  match name, cell r "project_name" with
  | SText a, SText b => str_eqb a b
  | _, _ => false
  end.

(** [add_project(project_data)]: INSERT OR REPLACE deletes the row with
    the same (UNIQUE) project_name and inserts the new row under a fresh
    id.  [false] is the [except] branch: a missing key, a column the
    table does not have, or a NULL project_name. *)
Definition add_project (project_data : record) (d : db) : bool * db :=
  match add_project_params project_data with
  | None => (false, d)
  | Some params =>
      if negb (forallb (λ c, bool_decide (c ∈ projects_columns d))
                 add_project_columns)
      then (false, d)
      else
        match params !! 0 with
        | Some SNull | None => (false, d)
        | Some name =>
            let id := (projects_seq d + 1)%Z in
            (true,
             Db (projects_columns d)
                (filter (λ r, has_name name r = false) (projects d)
                 ++ [new_project_row id params])
                id (parent_categories d) (progress_data d) (resources d)
                (original_excel_files d))
        end
  end.

(** The key list of [get_project_info]. *)
Definition info_columns : list string :=
  ["id"; "project_name"; "executing_company"; "consulting_company";
   "start_date"; "end_date"; "total_budget"; "project_location";
   "project_type"; "project_description"; "created_date"]%string.

(** The tuple [SELECT *] returns for a row. *)
Definition select_star (d : db) (r : record) : list sqlval :=
  cell r <$> projects_columns d.

(** [get_project_info(project_name)]: [dict(zip(columns, result))] for
    the first row with that name, [None] when there is none. *)
Definition get_project_info (project_name : pystr) (d : db)
  : option record :=
  match filter (λ r, has_name (SText project_name) r = true) (projects d)
  with
  | [] => None
  | r :: _ => Some (list_to_map (zip info_columns (select_star d r)))
  end.

(** Comparison of strings as SQLite compares TEXT (by code point). *)
Fixpoint str_le (s t : pystr) : bool :=
  match s, t with
  | [], _ => true
  | _ :: _, [] => false
  | a :: s', b :: t' => (a <? b)%N || (a =? b)%N && str_le s' t'
  end.

Definition number_of (v : sqlval) : option Q :=
  match v with
  | SInt z => Some (inject_Z z)
  | SReal q => Some q
  | _ => None
  end.

(** [a <= b] in the order of ORDER BY: NULL, then numbers, then text. *)
Definition sql_le (a b : sqlval) : bool :=
  match a, b with
  | SNull, _ => true
  | _, SNull => false
  | SText s, SText t => str_le s t
  | SText _, _ => false
  | _, SText _ => true
  | SInt x, SInt y => (x <=? y)%Z
  | SInt x, SReal y => Qle_bool (inject_Z x) y
  | SReal x, SInt y => Qle_bool x (inject_Z y)
  | SReal x, SReal y => Qle_bool x y
  end.

Definition sql_lt (a b : sqlval) : bool := negb (sql_le b a).

(** The rank of a value in that order: storage class, number, text. *)
Definition sql_key (v : sqlval) : nat * Q * pystr :=
  match v with
  | SNull => (0, 0%Q, [])
  | SInt z => (1, inject_Z z, [])
  | SReal q => (1, q, [])
  | SText s => (2, 0%Q, s)
  end.

(** [a = b] in SQL: never true on NULL. *)
Definition sql_eq (a b : sqlval) : bool :=
  match a, b with
  | SNull, _ | _, SNull => false
  | _, _ => sql_le a b && sql_le b a
  end.

(** ORDER BY as a stable insertion sort. *)
Fixpoint insert_by {A : Type} (le : A → A → bool) (x : A) (l : list A)
  : list A :=
  match l with
  | [] => [x]
  | y :: r => if le x y then x :: l else y :: insert_by le x r
  end.

Definition order_by {A : Type} (le : A → A → bool) (l : list A) : list A :=
  foldr (insert_by le) [] l.

(** [add_progress_data(progress_data)] for a dict with its seven keys. *)
Definition add_progress_data (e : progress_entry) (d : db) : bool * db :=
  (true,
   Db (projects_columns d) (projects d) (projects_seq d)
      (parent_categories d) (progress_data d ++ [e]) (resources d)
      (original_excel_files d)).

(** [get_progress_data(project_name)]: the rows of the project,
    ORDER BY entry_date. *)
Definition get_progress_data (project_name : pystr) (d : db)
  : list progress_entry :=
  order_by (λ a b, sql_le (entry_date a) (entry_date b))
    (filter (λ e, pe_project_name e = project_name) (progress_data d)).

(** The LEFT JOIN of a project with its parent category. *)
Definition join_category (d : db) (p : record) : record :=
  match filter (λ c, sql_eq (cell p "parent_category_id") (cell c "id")
                     = true)
          (parent_categories d) with
  | c :: _ =>
      <["parent_category_name" := cell c "category_name"]>
        (<["parent_category_description" := cell c "description"]> p)
  | [] =>
      <["parent_category_name" := SNull]>
        (<["parent_category_description" := SNull]> p)
  end.

(** ORDER BY pc.category_name, p.display_order, p.created_date DESC *)
Definition projects_order (a b : record) : bool :=
  let ca := cell a "parent_category_name" in
  let cb := cell b "parent_category_name" in
  let oa := cell a "display_order" in
  let ob := cell b "display_order" in
  sql_lt ca cb
  || sql_le ca cb
     && (sql_lt oa ob
         || sql_le oa ob
            && sql_le (cell b "created_date") (cell a "created_date")).

(** [get_all_projects()] *)
Definition get_all_projects (d : db) : list record :=
  order_by projects_order (join_category d <$> projects d).





End Store.
Export Store.

(** ** Earned-value indicators of evm_calculator.py *)
Module EVM.
Local Open Scope Q_scope.

Definition status_ahead : pystr := py "متقدم".
Definition status_on_track : pystr := py "على المسار".
Definition status_delayed : pystr := py "متأخر".

(** [_determine_project_status(spi, cpi)] *)
Definition _determine_project_status (spi cpi : Q) : pystr :=
  if Qle_bool 1 spi && Qle_bool 1 cpi then status_ahead
  else if Qle_bool (9 # 10) spi && Qle_bool (9 # 10) cpi
  then status_on_track
  else status_delayed.

(** [x > 0] *)
Definition positive (x : Q) : bool := negb (Qle_bool x 0).

(** [_calculate_eac(total_budget, cpi, completion_percent)] *)
Definition _calculate_eac (total_budget cpi completion_percent : Q) : Q :=
  if positive cpi then total_budget / cpi else total_budget.

(** The dict returned by [calculate_project_kpi]. *)
Record kpi : Type := Kpi {
  kpi_project_name : pystr;
  pv : Q;
  ev : Q;
  ac : Q;
  cpi : Q;
  spi : Q;
  cv : Q;
  sv : Q;
  cost_variance_percent : Q;
  schedule_variance_percent : Q;
  status : pystr;
  eac : Q;
  etc : Q;
  kpi_planned_completion : Q;
  kpi_actual_completion : Q;
  total_budget : Q
}.

(** [calculate_project_kpi(project_name)]; a budget that is not a number
    makes the multiplication raise TypeError, which the [except] turns
    into [None]. *)
Definition calculate_project_kpi (project_name : pystr) (d : db)
  : option kpi :=
  match get_project_info project_name d with
  | None => None
  | Some project_info =>
      let progress := get_progress_data project_name d in
      match last progress with
      | None => None
      | Some latest_data =>
          match getitem project_info "total_budget" ≫= number_of with
          | None => None
          | Some total_budget =>
              let planned := planned_completion latest_data / 100 in
              let actual := actual_completion latest_data / 100 in
              let pv := total_budget * planned in
              let ev := total_budget * actual in
              let ac := actual_cost latest_data in
              let cpi := if positive ac then ev / ac else 0 in
              let spi := if positive pv then ev / pv else 0 in
              let cv := ev - ac in
              let sv := ev - pv in
              let cvp := if positive pv then cv / pv * 100 else 0 in
              let svp := if positive pv then sv / pv * 100 else 0 in
              let status := _determine_project_status spi cpi in
              let eac := _calculate_eac total_budget cpi actual in
              let etc := if negb (Qle_bool eac ac) then eac - ac else 0 in
              Some (Kpi project_name pv ev ac cpi spi cv sv cvp svp status
                      eac etc (planned * 100) (actual * 100) total_budget)
          end
      end
  end.

(** The dict returned by [calculate_portfolio_kpi]. *)
Record portfolio_kpi : Type := PortfolioKpi {
  total_projects : nat;
  total_pv : Q;
  total_ev : Q;
  total_ac : Q;
  avg_cpi : Q;
  avg_spi : Q;
  total_cv : Q;
  total_sv : Q;
  status_counts : gmap pystr nat;
  project_details : list kpi
}.

(** The accumulators of the first loop of [calculate_portfolio_kpi]. *)
Record totals : Type := Totals {
  acc_pv : Q;
  acc_ev : Q;
  acc_ac : Q;
  valid_projects : nat;
  acc_details : list kpi
}.

(** [project['project_name']] of a row of [get_all_projects]. *)
Definition project_kpi_of (d : db) (project : record) : option kpi :=
  match getitem project "project_name" with
  | Some (SText name) => calculate_project_kpi name d
  | _ => None
  end.

Definition accumulate (d : db) (t : totals) (project : record) : totals :=
  match project_kpi_of d project with
  | Some k =>
      Totals (acc_pv t + pv k) (acc_ev t + ev k) (acc_ac t + ac k)
        (S (valid_projects t)) (acc_details t ++ [k])
  | None => t
  end.

Definition count_status (counts : gmap pystr nat) (k : kpi)
  : gmap pystr nat :=
  match counts !! status k with
  | Some n => <[status k := S n]> counts
  | None => counts
  end.

(** [calculate_portfolio_kpi()] *)
Definition calculate_portfolio_kpi (d : db) : option portfolio_kpi :=
  match get_all_projects d with
  | [] => None
  | projects =>
      let t := foldl (accumulate d) (Totals 0 0 0 0 []) projects in
      match valid_projects t with
      | O => None
      | _ =>
          let avg_cpi :=
            if positive (acc_ac t) then acc_ev t / acc_ac t else 0 in
          let avg_spi :=
            if positive (acc_pv t) then acc_ev t / acc_pv t else 0 in
          let counts0 : gmap pystr nat :=
            {[ status_ahead := O; status_delayed := O;
               status_on_track := O ]} in
          Some (PortfolioKpi (valid_projects t) (acc_pv t) (acc_ev t)
                  (acc_ac t) avg_cpi avg_spi (acc_ev t - acc_ac t)
                  (acc_ev t - acc_pv t)
                  (foldl count_status counts0 (acc_details t))
                  (acc_details t))
      end
  end.

(** The sum of an indicator over a list of project results. *)
Definition total_of (f : kpi → Q) (l : list kpi) : Q :=
  foldr (λ k acc, f k + acc) 0 l.

(** [status_counts[label]] *)
Definition status_count (counts : gmap pystr nat) (label : pystr) : nat :=
  default O (counts !! label).

(** The projects of [get_all_projects] that have a computable KPI. *)
Definition computable_kpis (d : db) : list kpi :=
  omap (project_kpi_of d) (get_all_projects d).

End EVM.
Export EVM.

(** ** The control skeleton of [import_project_template] *)
Module Importer.

    (* the project dict, the progress dicts of the date columns that are
       not all zero, and whether an exception leaves the column loop *)










End Importer.
Export Importer.

(** ** Performance lists and trends of evm_calculator.py *)
Module EVMReports.
Local Open Scope Q_scope.

(** One dict of the list [get_all_projects_performance] returns. *)
Record performance : Type := Performance {
  perf_project_name : option sqlval;
  perf_cpi : Q;
  perf_spi : Q;
  perf_status : pystr;
  completion : Q
}.

Definition performance_of (project : record) (k : kpi) : performance :=
  Performance (getitem project "project_name") (cpi k) (spi k) (status k)
    (kpi_actual_completion k).

(** [get_all_projects_performance()] *)
Definition get_all_projects_performance (d : db) : list performance :=
  foldl (λ performance_data project,
           match project_kpi_of d project with
           | Some project_kpi =>
               performance_data ++ [performance_of project project_kpi]
           | None => performance_data
           end)
    [] (get_all_projects d).

Definition all_projects : pystr := py "جميع المشاريع".

#[global] Instance Qle_decision (x y : Q) : Decision (x <= y).
Proof.
  destruct (Qlt_le_dec y x) as [H|H]; [right; by apply Qlt_not_le|by left].
Defined.

(** [a < b] on floats. *)
Definition less (a b : Q) : bool := negb (Qle_bool b a).

(** The flag [include_project] at the end of the loop body of
    [get_dashboard_data]. *)
Definition include_project (status_filter : pystr)
    (spi_threshold cpi_threshold : Q) (project_kpi : kpi) : bool :=
  let include_project := true in
  let include_project :=
    if negb (str_eqb status_filter all_projects)
    then if negb (str_eqb (status project_kpi) status_filter)
         then false else include_project
    else include_project in
  if less (spi project_kpi) spi_threshold
     || less (cpi project_kpi) cpi_threshold
  then if str_eqb status_filter status_on_track
       then false else include_project
  else include_project.

(** The body of the loop of [get_dashboard_data]. *)
Definition dashboard_step (status_filter : pystr)
    (spi_threshold cpi_threshold : Q) (d : db) (dashboard_data : list kpi)
    (project : record) : list kpi :=
  match project_kpi_of d project with
  | Some project_kpi =>
      if include_project status_filter spi_threshold cpi_threshold
           project_kpi
      then dashboard_data ++ [project_kpi]
      else dashboard_data
  | None => dashboard_data
  end.

(** [get_dashboard_data(status_filter, spi_threshold, cpi_threshold)] *)
Definition get_dashboard_data (status_filter : pystr)
    (spi_threshold cpi_threshold : Q) (d : db) : list kpi :=
  foldl (dashboard_step status_filter spi_threshold cpi_threshold d) []
    (get_all_projects d).







End EVMReports.
Export EVMReports.

(** ** Deleting, moving and grouping projects in data_manager.py *)
Module Maintenance.


(** [DELETE FROM <table> WHERE project_name = ?] inside a transaction.
    The tables of the file with a [project_name] column are
    [progress_data], [resources] and [projects]; on any other table name
    sqlite3 raises OperationalError, which is [None]. *)
Definition delete_where_project_name (table : string) (project_name : pystr)
    (d : db) : option db :=
  if bool_decide (table = "progress_data"%string) then
    Some (Db (projects_columns d) (projects d) (projects_seq d)
            (parent_categories d)
            (filter (λ e, pe_project_name e ≠ project_name)
               (progress_data d))
            (resources d) (original_excel_files d))
  else if bool_decide (table = "resources"%string) then
    Some (Db (projects_columns d) (projects d) (projects_seq d)
            (parent_categories d) (progress_data d)
            (filter (λ r, has_name (SText project_name) r = false)
               (resources d))
            (original_excel_files d))
  else if bool_decide (table = "projects"%string) then
    Some (Db (projects_columns d)
            (filter (λ r, has_name (SText project_name) r = false)
               (projects d))
            (projects_seq d) (parent_categories d) (progress_data d)
            (resources d) (original_excel_files d))
  else None.

(** [delete_project(project_name)]: four DELETE statements, then the
    commit.  When a statement raises, the [except] branch returns [False]
    without a commit, and the deletions made so far are rolled back when
    the connection is dropped. *)
Definition delete_project (project_name : pystr) (d : db) : bool * db :=
  match
    d1 ← delete_where_project_name "progress_data" project_name d;
    d2 ← delete_where_project_name "cash_flow" project_name d1;
    d3 ← delete_where_project_name "resources" project_name d2;
    delete_where_project_name "projects" project_name d3
  with
  | Some d' => (true, d')
  | None => (false, d)
  end.

(** The row [UPDATE projects SET parent_category_id = ?, display_order = ?]
    makes of a row that satisfies [WHERE project_name = ?]. *)
Definition moved (project_name : pystr)
    (new_parent_category_id new_display_order : sqlval) (r : record)
  : record :=
  if has_name (SText project_name) r
  then <["parent_category_id" := new_parent_category_id]>
         (<["display_order" := new_display_order]> r)
  else r.

(** [update_project_parent_category(project_name, new_parent_category_id,
    new_display_order)] for an [int] or [None] id and an [int] order;
    [false] is the [except] branch, taken when the table lacks a column
    the statement names. *)
Definition update_project_parent_category (project_name : pystr)
    (new_parent_category_id new_display_order : sqlval) (d : db)
  : bool * db :=
  if forallb (λ c, bool_decide (c ∈ projects_columns d))
       ["parent_category_id"; "display_order"; "project_name"]%string
  then
    (true,
     Db (projects_columns d)
        (moved project_name new_parent_category_id new_display_order
           <$> projects d)
        (projects_seq d) (parent_categories d) (progress_data d)
        (resources d) (original_excel_files d))
  else (false, d).

(** [a == b] on the values a result dict holds, which is also how a
    Python dict compares its keys. *)
Definition py_eqb (a b : sqlval) : bool :=
  match a, b with
  | SNull, SNull => true
  | SText s, SText t => str_eqb s t
  | SInt x, SInt y => Qeq_bool (inject_Z x) (inject_Z y)
  | SInt x, SReal y => Qeq_bool (inject_Z x) y
  | SReal x, SInt y => Qeq_bool x (inject_Z y)
  | SReal x, SReal y => Qeq_bool x y
  | _, _ => false
  end.

(** A Python dict from category names to project lists, in insertion
    order. *)
Abbreviation groups := (list (sqlval * list record)).

(** [key in grouped] *)
Definition has_group (key : sqlval) (grouped : groups) : bool :=
  existsb (λ g, py_eqb g.1 key) grouped.

(** [grouped[key].append(project)] for a key of the dict. *)
Fixpoint append_to_group (key : sqlval) (project : record)
    (grouped : groups) : groups :=
  match grouped with
  | [] => []
  | (k, ps) :: rest =>
      if py_eqb k key then (k, ps ++ [project]) :: rest
      else (k, ps) :: append_to_group key project rest
  end.

(** The body of the loop of [get_projects_by_category]. *)
Definition group_step (grouped : groups) (project : record) : groups :=
  let category_name :=
    get_default project "parent_category_name" (SText (py "Uncategorized")) in
  let grouped :=
    if negb (has_group category_name grouped)
    then grouped ++ [(category_name, [])]
    else grouped in
  append_to_group category_name project grouped.

(** [get_projects_by_category()] *)
Definition get_projects_by_category (d : db) : groups :=
  foldl group_step [] (get_all_projects d).

(** The projects of all groups. *)
Definition grouped_projects (grouped : groups) : list record :=
  concat (grouped.*2).

(** The [project_name] column of the [projects] table. *)
Definition project_names (d : db) : list sqlval :=
  (λ r, cell r "project_name") <$> projects d.

(** The invariant of the loop of [get_projects_by_category]. *)
Definition well_grouped (grouped : groups) : Prop :=
  (∀ k ps, (k, ps) ∈ grouped →
     ps ≠ [] ∧ ∀ p, p ∈ ps →
       py_eqb k (get_default p "parent_category_name"
                   (SText (py "Uncategorized"))) = true)
  ∧ ∀ i j g h, grouped !! i = Some g → grouped !! j = Some h → i ≠ j →
      py_eqb g.1 h.1 = false.

End Maintenance.
Export Maintenance.

(** ** A concrete reading of the built-ins on plain ASCII text

  Used to run the decoders on examples.  It covers decimal literals
  ([12], [-0.5], [1e+16]) in ASCII or Arabic-Indic digits, [inf] and
  [nan], and [YYYY-MM-DD] dates. *)
Module AsciiBuiltins.
Local Open Scope Z_scope.

Definition digit_of (c : N) : option Z :=
  if ((48 <=? c) && (c <=? 57))%N then Some (Z.of_N (c - 48))
  else if ((1632 <=? c) && (c <=? 1641))%N then Some (Z.of_N (c - 1632))
  else None.

(** Reads a run of digits: value so far, number of digits, rest. *)
Fixpoint read_digits (s : pystr) (acc : Z) (cnt : nat) : Z * nat * pystr :=
  match s with
  | c :: r =>
      match digit_of c with
      | Some d => read_digits r (10 * acc + d) (S cnt)
      | None => (acc, cnt, s)
      end
  | [] => (acc, cnt, [])
  end.

Definition read_sign (s : pystr) : bool * pystr :=
  match s with
  | 45%N :: r => (true, r)
  | 43%N :: r => (false, r)
  | _ => (false, s)
  end.

Definition pow10 (e : Z) : Q :=
  if 0 <=? e then inject_Z (10 ^ e) else (1 / inject_Z (10 ^ (- e)))%Q.

Definition read_exponent (s : pystr) : option Z :=
  match s with
  | [] => Some 0
  | c :: r =>
      if ((c =? 101) || (c =? 69))%N then
        let '(eneg, r1) := read_sign r in
        let '(e, n, r2) := read_digits r1 0 0 in
        match n, r2 with
        | S _, [] => Some (if eneg then - e else e)
        | _, _ => None
        end
      else None
  end.

Definition ascii_float (s : pystr) : option pyfloat :=
  let s := str_strip s in
  let '(neg, s1) := read_sign s in
  let low := str_lower s1 in
  if str_in low [py "inf"; py "infinity"] then Some (Inf neg)
  else if str_eqb low (py "nan") then Some NaN
  else
    let '(ip, n1, s2) := read_digits s1 0 0 in
    let '(m, n2, s3) :=
      match s2 with
      | 46%N :: r => read_digits r ip 0
      | _ => (ip, O, s2)
      end in
    match (n1 + n2)%nat with
    | O => None
    | _ =>
        match read_exponent s3 with
        | Some e =>
            Some (Finite (Qred (inject_Z (if neg then - m else m)
                                * pow10 (e - Z.of_nat n2))))
        | None => None
        end
    end.

Definition ascii_isdigit (s : pystr) : bool :=
  match s with
  | [] => false
  | _ =>
      forallb (λ c, ((48 <=? c) && (c <=? 57)
                     || (1632 <=? c) && (c <=? 1641))%N) s
  end.

Definition ascii_strptime (s : pystr) : option date :=
  let '(y, n1, s1) := read_digits s 0 0 in
  match n1, s1 with
  | 4%nat, 45%N :: s2 =>
      let '(m, n2, s3) := read_digits s2 0 0 in
      match s3 with
      | 45%N :: s4 =>
          let '(d, n3, s5) := read_digits s4 0 0 in
          match s5 with
          | [] =>
              if ((1 <=? n2) && (n2 <=? 2) && (1 <=? n3) && (n3 <=? 2))%nat
                 && (1 <=? y) && (1 <=? m) && (m <=? 12)
                 && (1 <=? d) && (d <=? days_in_month y m)
              then Some (Date y m d)
              else None
          | _ => None
          end
      | _ => None
      end
  | _, _ => None
  end.

#[global] Instance ascii_builtins : PyBuiltins := {
  float_of_str := ascii_float;
  str_isdigit := ascii_isdigit;
  strptime_ymd := ascii_strptime
}.

End AsciiBuiltins.
Export AsciiBuiltins.

(** ** Sample data for the examples *)
Module Samples.

(** A project dict as the "add project" form and the importer build it. *)
Definition bridge : record :=
  {[ "project_name" := SText (py "Bridge");
     "executing_company" := SText (py "Default Company");
     "consulting_company" := SText (py "Al-Saeed Consulting");
     "start_date" := SText (py "2024-01-01");
     "end_date" := SText (py "2024-12-31");
     "total_budget" := SReal 1000;
     "project_location" := SText (py "Riyadh");
     "project_type" := SText (py "Construction Project");
     "project_description" := SText (py "Project ID: P001");
     "created_date" := SText (py "2024-01-01 10:00:00") ]}%string.

Definition bridge_march : progress_entry :=
  ProgressEntry (py "Bridge") (SText (py "2024-03-01")) 50 400 40 500 SNull.

Definition bridge_january : progress_entry :=
  ProgressEntry (py "Bridge") (SText (py "2024-01-15")) 10 100 5 80 SNull.

(** The database a fresh installation holds after one project and two
    progress entries were added. *)
Definition fresh_db : db :=
  (add_progress_data bridge_january
     (add_progress_data bridge_march
        (add_project bridge init_database).2).2).2.

(** A database file whose projects table was created with the eleven
    columns that [get_project_info] names, the later columns having been
    appended by [migrate_database]. *)
Definition appended_columns : list string :=
  info_columns
  ++ ["project_id"; "parent_category_id"; "display_order";
      "contractor_name"; "project_manager"]%string.

Definition appended_db : db :=
  (add_progress_data bridge_january
     (add_progress_data bridge_march
        (add_project bridge
           (Db appended_columns [] 0 default_categories [] [] [])).2).2).2.

(** The thirteen formatted values of one date column, with a planned total
    cost of 1e16. *)
Definition huge_cost_fields : note_fields :=
  NoteFields (py "1e+16") (py "0") (py "0.5") (py "12.5") (py "3.0")
    (py "1.0") (py "0") (py "2024-01-31") (py "4.0") (py "2.0") (py "0")
    (py "40.0") (py "7.0").

(** A later entry of the sample project with no cost booked yet. *)
Definition bridge_unspent : progress_entry :=
  ProgressEntry (py "Bridge") (SText (py "2024-04-01")) 60 0 45 0 SNull.

Definition unspent_db : db := (add_progress_data bridge_unspent appended_db).2.
End Samples.
Export Samples.

(** * Properties *)

(** ** Status labels *)
Section StatusLabels.
Local Open Scope Q_scope.

Lemma status_labels_distinct :
  status_ahead ≠ status_on_track
  ∧ status_ahead ≠ status_delayed
  ∧ status_on_track ≠ status_delayed.
Proof. repeat split; vm_compute; discriminate. Qed.

Lemma Qle_bool_false (x y : Q) : Qle_bool x y = false ↔ ¬ x <= y.
Proof.
  rewrite <- Qle_bool_iff.
  destruct (Qle_bool x y); split; intros; try done; exfalso; auto.
Qed.

Lemma determine_project_status_label (spi cpi : Q) :
  _determine_project_status spi cpi = status_ahead
  ∨ _determine_project_status spi cpi = status_on_track
  ∨ _determine_project_status spi cpi = status_delayed.
Proof.
  unfold _determine_project_status.
  destruct (_ && _); [by left|]. destruct (_ && _); auto.
Qed.

(** C5: [_determine_project_status] is a total three-way classification:
    "ahead" exactly when SPI >= 1 and CPI >= 1; "on track" exactly when
    that fails but SPI >= 0.9 and CPI >= 0.9; "delayed" in every other
    case; and the three labels are pairwise different, so exactly one of
    them is produced. *)
Theorem determine_project_status_classifies (spi cpi : Q) :
  let s := _determine_project_status spi cpi in
  (s = status_ahead ↔ 1 <= spi ∧ 1 <= cpi)
  ∧ (s = status_on_track
     ↔ ¬ (1 <= spi ∧ 1 <= cpi) ∧ 9 # 10 <= spi ∧ 9 # 10 <= cpi)
  ∧ (s = status_delayed
     ↔ ¬ (1 <= spi ∧ 1 <= cpi) ∧ ¬ (9 # 10 <= spi ∧ 9 # 10 <= cpi))
  ∧ (s = status_ahead ∨ s = status_on_track ∨ s = status_delayed)
  ∧ status_ahead ≠ status_on_track
  ∧ status_ahead ≠ status_delayed
  ∧ status_on_track ≠ status_delayed.
Proof.
  destruct status_labels_distinct as (Hab & Had & Hbd).
  cbv zeta. unfold _determine_project_status.
  revert Hab Had Hbd.
  generalize status_ahead, status_on_track, status_delayed.
  intros a b c Hab Had Hbd.
  destruct (Qle_bool 1 spi) eqn:E1, (Qle_bool 1 cpi) eqn:E2;
    destruct (Qle_bool (9 # 10) spi) eqn:E3,
             (Qle_bool (9 # 10) cpi) eqn:E4; cbn [andb];
    repeat match goal with
      | H : Qle_bool _ _ = true |- _ => apply Qle_bool_iff in H
      | H : Qle_bool _ _ = false |- _ => apply Qle_bool_false in H
      end;
    repeat split; try tauto; try congruence;
    try (intros; exfalso; intuition congruence).
Qed.

End StatusLabels.

(** ** Strings: searching and stripping *)
Section StringFacts.

Lemma str_eqb_eq (s t : pystr) : str_eqb s t = true ↔ s = t.
Proof. unfold str_eqb. apply bool_decide_eq_true. Qed.

Lemma str_in_true (s : pystr) (words : list pystr) :
  str_in s words = true ↔ s ∈ words.
Proof.
  unfold str_in. rewrite existsb_exists. split.
  - intros (t & Hin & Heq). apply str_eqb_eq in Heq. subst t.
    by apply list_elem_of_In.
  - intros Hin. exists s. split; [by apply list_elem_of_In|].
    by apply str_eqb_eq.
Qed.

Lemma str_startswith_spec (p s : pystr) :
  str_startswith p s = true ↔ ∃ r, s = p ++ r.
Proof.
  revert s. induction p as [|a p IH]; intros s; cbn.
  - split; [eauto | done].
  - destruct s as [|b s]; cbn.
    + split; [done | intros [r Hr]; discriminate].
    + rewrite andb_true_iff, N.eqb_eq, IH. split.
      * intros [Hab [r Hr]]. subst. eauto.
      * intros [r Hr]. injection Hr as -> ->. eauto.
Qed.

Lemma str_startswith_app (p r : pystr) : str_startswith p (p ++ r) = true.
Proof. apply str_startswith_spec. eauto. Qed.

Lemma str_startswith_extend (p s b : pystr) :
  str_startswith p s = true → str_startswith p (s ++ b) = true.
Proof.
  rewrite !str_startswith_spec. intros [r ->]. exists (r ++ b).
  by rewrite app_assoc.
Qed.

Lemma str_find_unfold (sub s : pystr) :
  str_find sub s =
    if str_startswith sub s then Some 0
    else match s with
         | [] => None
         | _ :: r => S <$> str_find sub r
         end.
Proof. by destruct s. Qed.

Lemma str_find_here (sub s : pystr) :
  str_startswith sub s = true → str_find sub s = Some 0.
Proof. intros E. by rewrite str_find_unfold, E. Qed.

Lemma str_find_next (sub : pystr) (c : N) (s : pystr) :
  str_startswith sub (c :: s) = false →
  str_find sub (c :: s) = S <$> str_find sub s.
Proof. intros E. by rewrite str_find_unfold, E. Qed.

(** Nothing found in a text: nothing found in any of its suffixes. *)
Lemma str_find_none_suffix (sub a s : pystr) :
  str_find sub (a ++ s) = None → str_find sub s = None.
Proof.
  induction a as [|c a IH]; [done|].
  cbn [app]. rewrite str_find_unfold.
  destruct (str_startswith sub (c :: a ++ s)); [done|].
  destruct (str_find sub (a ++ s)); [done | auto].
Qed.

(** Nothing found in a text: nothing found in any of its prefixes. *)
Lemma str_find_none_prefix (sub s b : pystr) :
  str_find sub (s ++ b) = None → str_find sub s = None.
Proof.
  induction s as [|c s IH]; cbn [app].
  - intros Hb. rewrite str_find_unfold.
    destruct (str_startswith sub []) eqn:E; [|done].
    apply (str_startswith_extend _ _ b) in E. cbn [app] in E.
    by rewrite (str_find_here _ _ E) in Hb.
  - rewrite (str_find_unfold sub (c :: s ++ b)), (str_find_unfold sub (c :: s)).
    destruct (str_startswith sub (c :: s)) eqn:E.
    + apply (str_startswith_extend _ _ b) in E. cbn [app] in E. by rewrite E.
    + destruct (str_startswith sub (c :: s ++ b)); [done|].
      destruct (str_find sub (s ++ b)); [done|]. intros _. by rewrite IH.
Qed.

Lemma str_lstrip_suffix (s : pystr) : ∃ a, s = a ++ str_lstrip s.
Proof.
  induction s as [|c s [a IH]]; [by exists []|]. cbn.
  destruct (is_space c); [|by exists []].
  exists (c :: a). cbn. by rewrite <- IH.
Qed.

Lemma str_rstrip_prefix (s : pystr) : ∃ b, s = str_rstrip s ++ b.
Proof.
  unfold str_rstrip. destruct (str_lstrip_suffix (reverse s)) as [a Ha].
  exists (reverse a). rewrite <- reverse_app, <- Ha. by rewrite reverse_involutive.
Qed.

Lemma str_find_none_strip (sub s : pystr) :
  str_find sub s = None → str_find sub (str_strip s) = None.
Proof.
  intros Hs. unfold str_strip.
  destruct (str_lstrip_suffix s) as [a Ha].
  destruct (str_rstrip_prefix (str_lstrip s)) as [b Hb].
  rewrite Ha in Hs. apply str_find_none_suffix in Hs.
  rewrite Hb in Hs. by apply str_find_none_prefix in Hs.
Qed.

End StringFacts.

(** ** The decoder never fails *)
Section DecoderTotal.
Context `{PyBuiltins}.

Lemma decode_date_value_serial (value_str : pystr) (x : pyfloat) :
  decode_date_value value_str = Some (VFloat x) →
  float_gt x 40000 = true.
Proof.
  unfold decode_date_value. intros Hd.
  repeat match type of Hd with
    | (if ?c then _ else _) = _ => destruct c eqn:?
    | match ?c with _ => _ end = _ => destruct c eqn:?
    end; naive_solver.
Qed.

Lemma decode_number_value_float (value_str : pystr) (s : pystr) :
  decode_number_value value_str ≠ Some (VStr s).
Proof.
  unfold decode_number_value. cbv zeta.
  destruct (_ || _); [done|].
  destruct (str_contains _ _).
  - by destruct (float_of_str _).
  - destruct (float_of_str _) as [result|]; [|done].
    by destruct (float_gt _ _).
Qed.

Lemma extract_excel_row_data_str_rows (notes_str s : pystr)
    (row_number : Z) :
  extract_excel_row_data notes_str row_number = Some (VStr s) →
  row_number = 17%Z ∨ row_number = 20%Z.
Proof.
  unfold extract_excel_row_data.
  destruct notes_str as [|c n]; cbv beta iota zeta; [done|].
  destruct (str_find _ _); [|done].
  destruct (_ || _); [done|].
  case_bool_decide; [done|].
  intros Hd. by apply decode_number_value_float in Hd.
Qed.

(** C3: on every string and every row number [extract_excel_row_data]
    returns [None], a number, or a date string -- it is a total function,
    every exception of the source being turned into [None].  A string is
    returned only for rows 17 and 20, where a number is an Excel date
    serial (above 40000).  On a string that does not contain ['R<row>:']
    the result is [None]. *)
Theorem extract_excel_row_data_never_fails (notes_str : pystr)
    (row_number : Z) :
  let r := extract_excel_row_data notes_str row_number in
  (r = None ∨ (∃ x, r = Some (VFloat x)) ∨ (∃ s, r = Some (VStr s)))
  ∧ (∀ s, r = Some (VStr s) → row_number = 17%Z ∨ row_number = 20%Z)
  ∧ (∀ x, row_number = 17%Z ∨ row_number = 20%Z →
          r = Some (VFloat x) → float_gt x 40000 = true)
  ∧ (str_contains (row_key row_number) notes_str = false → r = None).
Proof.
  cbv zeta. split; [|split; [|split]].
  - destruct (extract_excel_row_data notes_str row_number) as [[x|s]|]; eauto.
  - intros s. apply extract_excel_row_data_str_rows.
  - intros x Hrow. unfold extract_excel_row_data.
    destruct notes_str as [|c n]; cbv beta iota zeta; [done|].
    destruct (str_find _ _); [|done].
    destruct (_ || _); [done|].
    rewrite bool_decide_eq_true_2 by done.
    apply decode_date_value_serial.
  - unfold str_contains, extract_excel_row_data.
    destruct (str_find (row_key row_number) notes_str) eqn:E; [done|].
    intros _. destruct notes_str as [|c n]; cbv beta iota zeta; [done|].
    by rewrite (str_find_none_strip _ _ E).
Qed.

End DecoderTotal.

Lemma extract_excel_row_data_never_fails_witness :
  str_contains (row_key 7) (py "R8:1|R9:x") = false
  ∧ extract_excel_row_data (py "R8:1|R9:x") 7 = None.
Proof.
  split; [reflexivity|].
  apply (extract_excel_row_data_never_fails (py "R8:1|R9:x") 7).
  reflexivity.
Defined.

(** ** ORDER BY *)
Section OrderBy.
Context {A : Type} (le : A → A → bool).

Lemma insert_by_perm (x : A) (l : list A) : insert_by le x l ≡ₚ x :: l.
Proof.
  induction l as [|y l IH]; cbn; [done|].
  destruct (le x y); [done|]. rewrite IH. apply Permutation_swap.
Qed.

Lemma order_by_perm (l : list A) : order_by le l ≡ₚ l.
Proof.
  induction l as [|x l IH]; cbn; [done|].
  fold (order_by le l). by rewrite insert_by_perm, IH.
Qed.

Hypothesis le_total : ∀ a b, le a b = true ∨ le b a = true.
Hypothesis le_trans : ∀ a b c, le a b = true → le b c = true → le a c = true.

Lemma insert_by_sorted (x : A) (l : list A) :
  StronglySorted (λ a b, le a b = true) l →
  StronglySorted (λ a b, le a b = true) (insert_by le x l).
Proof.
  induction 1 as [|y l Hs IH Hy]; cbn.
  - repeat constructor.
  - destruct (le x y) eqn:E.
    + constructor; [by constructor|].
      constructor; [done|].
      eapply Forall_impl; [exact Hy|]. intros z Hz. by eapply le_trans.
    + constructor; [done|].
      rewrite insert_by_perm. constructor; [|done].
      destruct (le_total x y); congruence.
Qed.

Lemma order_by_sorted (l : list A) :
  StronglySorted (λ a b, le a b = true) (order_by le l).
Proof.
  induction l as [|x l IH]; cbn; [constructor|].
  by apply insert_by_sorted.
Qed.

Lemma sorted_last_max (l : list A) (m : A) :
  StronglySorted (λ a b, le a b = true) l →
  last l = Some m → ∀ e, e ∈ l → le e m = true.
Proof.
  induction 1 as [|y l Hs IH Hy]; [done|].
  intros Hlast e He.
  destruct l as [|z l].
  - cbn in Hlast. injection Hlast as <-.
    apply list_elem_of_singleton in He as ->.
    by destruct (le_total y y).
  - change (last (z :: l) = Some m) in Hlast.
    apply elem_of_cons in He as [->|He]; [|by apply IH].
    assert (Hm : m ∈ z :: l).
    { apply last_Some in Hlast as [l' ->]. set_solver. }
    by apply (proj1 (Forall_forall _ _) Hy).
Qed.

End OrderBy.

Section SqlOrder.

Lemma str_le_total (s t : pystr) : str_le s t = true ∨ str_le t s = true.
Proof.
  revert t. induction s as [|a s IH]; intros [|b t]; cbn; auto.
  destruct (N.lt_trichotomy a b) as [Hl|[->|Hl]].
  - left. apply orb_true_iff. left. by apply N.ltb_lt.
  - rewrite N.eqb_refl, !andb_true_l.
    destruct (IH t) as [E|E]; rewrite E; rewrite orb_true_r; auto.
  - right. apply orb_true_iff. left. by apply N.ltb_lt.
Qed.

Lemma str_le_trans (s t u : pystr) :
  str_le s t = true → str_le t u = true → str_le s u = true.
Proof.
  revert t u. induction s as [|a s IH]; intros [|b t] [|c u]; cbn; try done.
  rewrite !orb_true_iff, !andb_true_iff, !N.ltb_lt, !N.eqb_eq.
  intros [Hab|[-> Hst]] [Hbc|[-> Htu]].
  - left. lia.
  - by left.
  - by left.
  - right. split; [done|]. by eapply IH.
Qed.

Lemma sql_le_key (a b : sqlval) :
  sql_le a b = true ↔
    (sql_key a).1.1 < (sql_key b).1.1
    ∨ (sql_key a).1.1 = (sql_key b).1.1
      ∧ ((sql_key a).1.2 <= (sql_key b).1.2)%Q
      ∧ str_le (sql_key a).2 (sql_key b).2 = true.
Proof.
  destruct a as [|x|x|s], b as [|y|y|t]; cbn;
    rewrite ?Qle_bool_iff, ?Z.leb_le, ?Zle_Qle;
    split; try done; try lia; try (intros _; lia); intros; try tauto;
    try (right; repeat split; done || apply Qle_refl);
    try (destruct H as [?|(?&?&?)]; done || lia).
Qed.

Lemma sql_le_total (a b : sqlval) : sql_le a b = true ∨ sql_le b a = true.
Proof.
  rewrite !sql_le_key.
  destruct (lt_eq_lt_dec (sql_key a).1.1 (sql_key b).1.1) as [[Hl|He]|Hl];
    [by left; left| |by right; left].
  destruct (Qlt_le_dec (sql_key a).1.2 (sql_key b).1.2) as [Hq|Hq].
  - destruct a as [|x|x|s], b as [|y|y|t]; cbn in *; try done;
      left; right; repeat split; by try apply Qlt_le_weak.
  - destruct a as [|x|x|s], b as [|y|y|t]; cbn in *; try done;
      try (right; right; repeat split; done).
    destruct (str_le_total s t); [left|right]; right; repeat split;
      done || apply Qle_refl.
Qed.

Lemma sql_le_trans (a b c : sqlval) :
  sql_le a b = true → sql_le b c = true → sql_le a c = true.
Proof.
  rewrite !sql_le_key.
  intros [Hab|(Hab & Qab & Sab)] [Hbc|(Hbc & Qbc & Sbc)];
    try (left; lia).
  right. split; [lia|]. split; [by eapply Qle_trans|].
  by eapply str_le_trans.
Qed.

End SqlOrder.

(** ** Progress rows come back in date order *)
Section ProgressOrder.

Lemma calculate_project_kpi_latest (project_name : pystr) (d : db) (k : kpi) :
  calculate_project_kpi project_name d = Some k →
  ∃ latest, last (get_progress_data project_name d) = Some latest
            ∧ ac k = actual_cost latest.
Proof.
  unfold calculate_project_kpi.
  destruct (get_project_info project_name d); [|done].
  destruct (last (get_progress_data project_name d)) as [latest|]; [|done].
  destruct (_ ≫= _); [|done].
  intros [= <-]. by exists latest.
Qed.

(** C9: [get_progress_data] returns exactly the rows of the project, in
    ascending order of entry_date; hence its last row -- the "latest
    entry" that [calculate_project_kpi] reads -- is a row of the project
    with the greatest entry_date; it is empty when the project has no
    rows. *)
Theorem get_progress_data_sorted (project_name : pystr) (d : db) :
  let rows := get_progress_data project_name d in
  StronglySorted (λ a b, sql_le (entry_date a) (entry_date b) = true) rows
  ∧ rows ≡ₚ filter (λ e, pe_project_name e = project_name) (progress_data d)
  ∧ (∀ latest, last rows = Some latest →
       latest ∈ progress_data d
       ∧ pe_project_name latest = project_name
       ∧ ∀ e, e ∈ progress_data d → pe_project_name e = project_name →
              sql_le (entry_date e) (entry_date latest) = true)
  ∧ (∀ k, calculate_project_kpi project_name d = Some k →
       ∃ latest, last rows = Some latest ∧ ac k = actual_cost latest)
  ∧ ((∀ e, e ∈ progress_data d → pe_project_name e ≠ project_name) →
     rows = []).
Proof.
  cbv zeta.
  set (le := λ a b : progress_entry, sql_le (entry_date a) (entry_date b)).
  assert (Htot : ∀ a b, le a b = true ∨ le b a = true)
    by (intros; apply sql_le_total).
  assert (Htr : ∀ a b c, le a b = true → le b c = true → le a c = true)
    by (intros a b c; apply sql_le_trans).
  assert (Hsorted : StronglySorted (λ a b, le a b = true)
                      (get_progress_data project_name d))
    by apply (order_by_sorted le Htot Htr).
  assert (Hperm : get_progress_data project_name d
                  ≡ₚ filter (λ e, pe_project_name e = project_name)
                       (progress_data d))
    by apply (order_by_perm le).
  split; [exact Hsorted|]. split; [exact Hperm|].
  split; [|split].
  - intros latest Hlast.
    assert (Hin : latest ∈ get_progress_data project_name d).
    { apply last_Some in Hlast as [l' Hl']. rewrite Hl'. set_solver. }
    pose proof Hin as Hin'. rewrite Hperm in Hin'.
    apply list_elem_of_filter in Hin' as [Hname Hd].
    split; [done|]. split; [done|].
    intros e He Hen.
    apply (sorted_last_max le Htot Htr (get_progress_data project_name d));
      [done..|].
    rewrite Hperm. by apply list_elem_of_filter.
  - apply calculate_project_kpi_latest.
  - intros Hnone.
    assert (Hf : filter (λ e, pe_project_name e = project_name)
                   (progress_data d) = []).
    { clear Hperm. induction (progress_data d) as [|e l IH]; [done|].
      rewrite filter_cons. destruct (decide _) as [E|E].
      - exfalso. eapply Hnone; [|exact E]. set_solver.
      - apply IH. intros e' He'. apply Hnone. set_solver. }
    rewrite Hf in Hperm. by apply Permutation_nil_r in Hperm.
Qed.

End ProgressOrder.

Lemma get_progress_data_sorted_witness :
  let d := Db init_database_columns [] 0 [] 
             [ProgressEntry (py "P1") (SText (py "2024-03-01")) 30 0 20 5 SNull;
              ProgressEntry (py "P2") (SText (py "2024-05-01")) 1 1 1 1 SNull;
              ProgressEntry (py "P1") (SText (py "2024-01-15")) 10 0 5 2 SNull]
             [] [] in
  entry_date <$> last (get_progress_data (py "P1") d)
    = Some (SText (py "2024-03-01"))
  ∧ get_progress_data (py "P3") d = [].
Proof.
  intros d. split; [reflexivity|].
  apply (get_progress_data_sorted (py "P3") d).
  intros e He Hname.
  apply list_elem_of_In in He. cbn in He.
  destruct He as [<-|[<-|[<-|[]]]]; vm_compute in Hname; discriminate.
Defined.

(** ** The project record read back by [get_project_info] *)
Section ProjectInfo.

(** What [get_project_info] returns for a stored row [r] when the table
    has the column order of [init_database]: the eleven keys paired with
    the first eleven columns of the table. *)
Lemma info_of_row_init_database (r : record) :
  let info : record :=
    list_to_map (zip info_columns (cell r <$> init_database_columns)) in
  info !! "id" = Some (cell r "id")
  ∧ info !! "project_name" = Some (cell r "project_name")
  ∧ info !! "executing_company" = Some (cell r "project_id")
  ∧ info !! "consulting_company" = Some (cell r "purchase_order")
  ∧ info !! "start_date" = Some (cell r "parent_category_id")
  ∧ info !! "end_date" = Some (cell r "executing_company")
  ∧ info !! "total_budget" = Some (cell r "consulting_company")
  ∧ info !! "project_location" = Some (cell r "start_date")
  ∧ info !! "project_type" = Some (cell r "end_date")
  ∧ info !! "project_description" = Some (cell r "total_budget")
  ∧ info !! "created_date" = Some (cell r "project_location").
Proof.
  cbv zeta. generalize (cell r). intros f.
  repeat split; vm_compute; reflexivity.
Qed.

Lemma get_project_info_row (project_name : pystr) (d : db) (info : record) :
  get_project_info project_name d = Some info →
  ∃ r, r ∈ projects d
       ∧ cell r "project_name" = SText project_name
       ∧ info = list_to_map (zip info_columns (select_star d r)).
Proof.
  unfold get_project_info.
  destruct (filter _ (projects d)) as [|r l] eqn:E; [done|].
  intros [= <-]. exists r.
  assert (Hr : r ∈ filter (λ r, has_name (SText project_name) r = true)
                     (projects d)) by (rewrite E; set_solver).
  apply list_elem_of_filter in Hr as [Hn Hr].
  split; [done|]. split; [|done].
  unfold has_name in Hn.
  destruct (cell r "project_name"); try done.
  apply str_eqb_eq in Hn. by subst.
Qed.

(** On the column order of [init_database], the budget that
    [calculate_project_kpi] reads is the consulting company: whenever
    that is not a number, no indicator is computed. *)
Lemma calculate_project_kpi_init_database_columns (project_name : pystr)
    (d : db) :
  projects_columns d = init_database_columns →
  (∀ r, r ∈ projects d → number_of (cell r "consulting_company") = None) →
  calculate_project_kpi project_name d = None.
Proof.
  intros Hcols Htext. unfold calculate_project_kpi.
  destruct (get_project_info project_name d) as [info|] eqn:E; [|done].
  apply get_project_info_row in E as (r & Hr & _ & ->).
  destruct (last _); [|done].
  unfold select_star, getitem. rewrite Hcols.
  destruct (info_of_row_init_database r) as (_&_&_&_&_&_&Hb&_).
  cbv zeta in Hb. rewrite Hb. cbn. by rewrite (Htext r Hr).
Qed.

End ProjectInfo.

(** C7 (fails on the code): after [add_project] succeeds on the database
    that [init_database] creates, [get_project_info] returns the stored
    values under the wrong keys -- ['executing_company'] holds the project
    id, ['total_budget'] the consulting company, and so on -- so seven of
    the eight fields differ from the record that was stored. *)
Theorem add_project_get_project_info_fresh :
  let stored := add_project bridge init_database in
  stored.1 = true
  ∧ ∃ info : record,
      get_project_info (py "Bridge") stored.2 = Some info
      ∧ info !! "project_name" = bridge !! "project_name"
      ∧ info !! "executing_company" = Some (SText [])
      ∧ info !! "consulting_company" = Some SNull
      ∧ info !! "start_date" = Some SNull
      ∧ info !! "end_date" = bridge !! "executing_company"
      ∧ info !! "total_budget" = bridge !! "consulting_company"
      ∧ info !! "project_location" = bridge !! "start_date"
      ∧ info !! "project_type" = bridge !! "end_date"
      ∧ info !! "executing_company" ≠ bridge !! "executing_company"
      ∧ info !! "consulting_company" ≠ bridge !! "consulting_company"
      ∧ info !! "start_date" ≠ bridge !! "start_date"
      ∧ info !! "end_date" ≠ bridge !! "end_date"
      ∧ info !! "total_budget" ≠ bridge !! "total_budget"
      ∧ info !! "project_location" ≠ bridge !! "project_location"
      ∧ info !! "project_type" ≠ bridge !! "project_type".
Proof.
  cbv zeta. split; [reflexivity|].
  eexists. split; [reflexivity|].
  repeat split; vm_compute; (reflexivity || discriminate).
Qed.

(** When the table has the eleven columns of [get_project_info] in front,
    the same record is read back as it was stored. *)
Lemma add_project_get_project_info_appended :
  let stored :=
    add_project bridge (Db appended_columns [] 0 default_categories [] [] []) in
  stored.1 = true
  ∧ ∃ info : record,
      get_project_info (py "Bridge") stored.2 = Some info
      ∧ Forall (λ key, info !! key = bridge !! key)
          ["project_name"; "executing_company"; "consulting_company";
           "start_date"; "end_date"; "total_budget"; "project_location";
           "project_type"]%string.
Proof.
  cbv zeta. split; [reflexivity|].
  eexists. split; [reflexivity|].
  repeat constructor; vm_compute; reflexivity.
Qed.

(** ** Earned-value indicators *)
Section Indicators.
Local Open Scope Q_scope.

(** What [calculate_project_kpi] computes from the budget it reads, for a
    project with a record and a non-empty history. *)
Lemma calculate_project_kpi_formulas (project_name : pystr) (d : db)
    (info : record) (latest : progress_entry) (B : Q) :
  get_project_info project_name d = Some info →
  last (get_progress_data project_name d) = Some latest →
  getitem info "total_budget" ≫= number_of = Some B →
  ∃ k, calculate_project_kpi project_name d = Some k
       ∧ pv k == B * planned_completion latest / 100
       ∧ ev k == B * actual_completion latest / 100
       ∧ ac k = actual_cost latest
       ∧ cpi k = (if positive (ac k) then ev k / ac k else 0)
       ∧ spi k = (if positive (pv k) then ev k / pv k else 0)
       ∧ cv k = ev k - ac k
       ∧ sv k = ev k - pv k
       ∧ status k = _determine_project_status (spi k) (cpi k).
Proof.
  intros Hinfo Hlast HB. unfold calculate_project_kpi.
  rewrite Hinfo, Hlast, HB. eexists. split; [reflexivity|]. cbn.
  repeat split; try reflexivity; field.
Qed.


Lemma calculate_project_kpi_status (project_name : pystr) (d : db) (k : kpi) :
  calculate_project_kpi project_name d = Some k →
  status k = _determine_project_status (spi k) (cpi k).
Proof.
  unfold calculate_project_kpi.
  destruct (get_project_info project_name d); [|done].
  destruct (last _); [|done]. destruct (_ ≫= _); [|done].
  by intros [= <-].
Qed.

End Indicators.

(** C1 (fails on the code): on the database that [init_database] creates,
    a project stored with total budget 1000 and a latest progress entry
    with planned completion 50, actual completion 40 and actual cost 500
    has a record and a non-empty history, yet [calculate_project_kpi]
    returns [None] instead of PV = 500, EV = 400: the budget it reads is
    the text of the consulting company. *)
Theorem calculate_project_kpi_fresh_database :
  (∃ r, r ∈ projects fresh_db
        ∧ cell r "project_name" = SText (py "Bridge")
        ∧ cell r "total_budget" = SReal 1000)
  ∧ last (get_progress_data (py "Bridge") fresh_db) = Some bridge_march
  ∧ (∃ info : record,
       get_project_info (py "Bridge") fresh_db = Some info
       ∧ info !! "total_budget" = Some (SText (py "Al-Saeed Consulting")))
  ∧ calculate_project_kpi (py "Bridge") fresh_db = None.
Proof.
  split; [|split; [|split]].
  - eexists. split; [apply list_elem_of_here|]. split; vm_compute; reflexivity.
  - reflexivity.
  - eexists. split; [reflexivity|]. vm_compute. reflexivity.
  - reflexivity.
Qed.

(** With the eleven columns of [get_project_info] in front, the same data
    give the indicators of the claim. *)
Lemma calculate_project_kpi_appended_columns :
  ∃ k, calculate_project_kpi (py "Bridge") appended_db = Some k
       ∧ (pv k == 500 ∧ ev k == 400 ∧ ac k == 500 ∧ cpi k == 4 # 5
          ∧ spi k == 4 # 5 ∧ cv k == - (100) ∧ sv k == - (100))%Q
       ∧ status k = status_delayed.
Proof.
  eexists. split; [reflexivity|]. split; [|reflexivity].
  repeat split; reflexivity.
Qed.

(** ** Portfolio aggregation *)
Section Portfolio.
Local Open Scope Q_scope.

Lemma accumulate_fold (d : db) (l : list record) (t : totals) :
  let t' := foldl (accumulate d) t l in
  let valid := omap (project_kpi_of d) l in
  acc_pv t' == acc_pv t + total_of pv valid
  ∧ acc_ev t' == acc_ev t + total_of ev valid
  ∧ acc_ac t' == acc_ac t + total_of ac valid
  ∧ valid_projects t' = (valid_projects t + length valid)%nat
  ∧ acc_details t' = acc_details t ++ valid.
Proof.
  cbv zeta. revert t. induction l as [|p l IH]; intros t; cbn.
  - rewrite !Qplus_0_r, Nat.add_0_r, app_nil_r. done.
  - unfold accumulate at 2 4 6 8 10.
    destruct (project_kpi_of d p) as [k|]; [|apply IH].
    destruct (IH (Totals (acc_pv t + pv k) (acc_ev t + ev k) (acc_ac t + ac k)
                    (S (valid_projects t)) (acc_details t ++ [k])))
      as (Hpv & Hev & Hac & Hn & Hd).
    cbn in *. rewrite Hpv, Hev, Hac, Hn, Hd, <- app_assoc.
    unfold total_of. repeat split; try ring. lia.
Qed.

Lemma project_kpi_of_join (d : db) (p : record) :
  project_kpi_of d (join_category d p) = project_kpi_of d p.
Proof.
  unfold project_kpi_of, join_category, getitem.
  destruct (filter _ _); by rewrite !lookup_insert_ne.
Qed.

Lemma computable_kpis_perm (d : db) :
  computable_kpis d ≡ₚ omap (project_kpi_of d) (projects d).
Proof.
  unfold computable_kpis, get_all_projects. rewrite order_by_perm.
  induction (projects d) as [|p l IH]; [done|]. cbn.
  rewrite project_kpi_of_join. destruct (project_kpi_of d p); by rewrite IH.
Qed.

Lemma computable_kpis_status (d : db) (k : kpi) :
  k ∈ computable_kpis d →
  status k = status_ahead ∨ status k = status_on_track
  ∨ status k = status_delayed.
Proof.
  intros Hk. apply list_elem_of_omap in Hk as (p & _ & Hp).
  unfold project_kpi_of in Hp.
  destruct (getitem p "project_name") as [[| | |name]|]; try done.
  apply calculate_project_kpi_status in Hp. rewrite Hp.
  apply determine_project_status_label.
Qed.

Lemma count_status_step (k : kpi) (counts : gmap pystr nat) :
  status k = status_ahead ∨ status k = status_on_track
  ∨ status k = status_delayed →
  is_Some (counts !! status_ahead) → is_Some (counts !! status_delayed) →
  is_Some (counts !! status_on_track) →
  let counts' := count_status counts k in
  is_Some (counts' !! status_ahead) ∧ is_Some (counts' !! status_delayed)
  ∧ is_Some (counts' !! status_on_track)
  ∧ (status_count counts' status_ahead + status_count counts' status_delayed
     + status_count counts' status_on_track
     = S (status_count counts status_ahead
          + status_count counts status_delayed
          + status_count counts status_on_track))%nat.
Proof.
  destruct status_labels_distinct as (Hab & Had & Hbd).
  cbv zeta. unfold status_count, count_status. revert Hab Had Hbd.
  generalize status_ahead, status_on_track, status_delayed.
  intros a b c Hab Hac Hbc Hk [na Ea] [nc Ec] [nb Eb].
  destruct Hk as [Hk|[Hk|Hk]]; rewrite Hk.
  - rewrite Ea, lookup_insert_eq, !lookup_insert_ne, Eb, Ec by done.
    cbn. repeat split; eauto.
  - rewrite Eb, lookup_insert_eq, !lookup_insert_ne, Ea, Ec by done.
    cbn. repeat split; eauto; lia.
  - rewrite Ec, lookup_insert_eq, !lookup_insert_ne, Ea, Eb by done.
    cbn. repeat split; eauto; lia.
Qed.

Lemma count_status_fold (l : list kpi) (counts : gmap pystr nat) :
  (∀ k, k ∈ l → status k = status_ahead ∨ status k = status_on_track
                ∨ status k = status_delayed) →
  is_Some (counts !! status_ahead) → is_Some (counts !! status_delayed) →
  is_Some (counts !! status_on_track) →
  let counts' := foldl count_status counts l in
  (status_count counts' status_ahead + status_count counts' status_delayed
   + status_count counts' status_on_track
   = status_count counts status_ahead + status_count counts status_delayed
     + status_count counts status_on_track + length l)%nat.
Proof.
  cbv zeta. revert counts.
  induction l as [|k l IH]; intros counts Hst Ha Hc Hb.
  - cbn [foldl length]. lia.
  - cbn [foldl length].
    destruct (count_status_step k counts) as (Ha' & Hc' & Hb' & Hsum);
      [apply Hst, list_elem_of_here|done..|].
    rewrite IH; [|intros k' Hk'; by apply Hst, list_elem_of_further|done..].
    cbv zeta in Hsum. rewrite Hsum. lia.
Qed.

(** C6: [calculate_portfolio_kpi] aggregates exactly the projects of the
    table that have a computable KPI.  When there is none it returns
    [None]; otherwise its totals are the sums of pv, ev and ac over them,
    avg_cpi is total_ev / total_ac when total_ac > 0 and 0 otherwise,
    avg_spi is total_ev / total_pv when total_pv > 0 and 0 otherwise, and
    the three status counts add up to the number of those projects. *)
Theorem calculate_portfolio_kpi_aggregates (d : db) :
  let valid := computable_kpis d in
  valid ≡ₚ omap (project_kpi_of d) (projects d)
  ∧ (valid = [] → calculate_portfolio_kpi d = None)
  ∧ (valid ≠ [] →
     ∃ r, calculate_portfolio_kpi d = Some r
          ∧ total_pv r == total_of pv valid
          ∧ total_ev r == total_of ev valid
          ∧ total_ac r == total_of ac valid
          ∧ avg_cpi r
            = (if positive (total_ac r) then total_ev r / total_ac r else 0)
          ∧ avg_spi r
            = (if positive (total_pv r) then total_ev r / total_pv r else 0)
          ∧ (status_count (status_counts r) status_ahead
             + status_count (status_counts r) status_delayed
             + status_count (status_counts r) status_on_track
             = length valid)%nat
          ∧ total_projects r = length valid
          ∧ project_details r = valid).
Proof.
  cbv zeta. split; [apply computable_kpis_perm|].
  pose proof (computable_kpis_status d) as Hstatus.
  destruct status_labels_distinct as (Hab & Had & Hbd).
  unfold calculate_portfolio_kpi, computable_kpis in *.
  destruct (accumulate_fold d (get_all_projects d) (Totals 0 0 0 0 []))
    as (Hpv & Hev & Hac & Hn & Hd).
  cbv zeta in Hpv, Hev, Hac, Hn, Hd.
  cbn [acc_pv acc_ev acc_ac valid_projects acc_details] in Hpv, Hev, Hac, Hn, Hd.
  rewrite Qplus_0_l in Hpv, Hev, Hac. cbn [app Nat.add] in Hn, Hd.
  destruct (get_all_projects d) as [|p l].
  { split; [done|]. intros Hne. by cbn [omap list_omap] in Hne. }
  set (t := foldl (accumulate d) (Totals 0 0 0 0 []) (p :: l)) in *.
  set (valid := omap (project_kpi_of d) (p :: l)) in *.
  cbv beta iota zeta.
  split.
  - intros Hnil. rewrite Hnil in Hn. cbn [length] in Hn. by rewrite Hn.
  - intros Hne.
    destruct (valid_projects t) as [|n] eqn:Hvalid.
    { destruct valid; [done|discriminate Hn]. }
    eexists. split; [reflexivity|].
    cbn [total_pv total_ev total_ac avg_cpi avg_spi status_counts
         total_projects project_details].
    split; [exact Hpv|]. split; [exact Hev|]. split; [exact Hac|].
    split; [reflexivity|]. split; [reflexivity|].
    split; [|split; [exact Hn|exact Hd]].
    rewrite Hd, count_status_fold.
    + unfold status_count.
      rewrite lookup_insert_eq.
      rewrite (lookup_insert_ne _ status_ahead status_delayed) by done.
      rewrite lookup_insert_eq.
      rewrite (lookup_insert_ne _ status_ahead status_on_track) by done.
      rewrite (lookup_insert_ne _ status_delayed status_on_track) by done.
      rewrite lookup_singleton_eq. cbn [default from_option]. unfold id. lia.
    + exact Hstatus.
    + rewrite lookup_insert_eq. eauto.
    + rewrite (lookup_insert_ne _ status_ahead status_delayed) by done.
      rewrite lookup_insert_eq. eauto.
    + rewrite (lookup_insert_ne _ status_ahead status_on_track) by done.
      rewrite (lookup_insert_ne _ status_delayed status_on_track) by done.
      rewrite lookup_singleton_eq. eauto.
Qed.

End Portfolio.

Lemma calculate_portfolio_kpi_aggregates_witness :
  computable_kpis appended_db ≠ []
  ∧ ∃ r, calculate_portfolio_kpi appended_db = Some r
         ∧ (total_pv r == 500)%Q ∧ total_projects r = 1.
Proof.
  assert (Hne : computable_kpis appended_db ≠ []) by (vm_compute; discriminate).
  split; [exact Hne|].
  destruct (calculate_portfolio_kpi_aggregates appended_db) as (_ & _ & Hsome).
  destruct (Hsome Hne) as (r & Hr & Hpv & _ & _ & _ & _ & _ & Hn & _).
  exists r. split; [exact Hr|]. split.
  - rewrite Hpv. vm_compute. reflexivity.
  - rewrite Hn. vm_compute. reflexivity.
Defined.

(** ** The import replaces the whole database *)
Section ImportClears.









End ImportClears.


(** ** Date-nearest-match lookup *)
Section ClosestLookup.
Context `{PyBuiltins}.
Local Open Scope Z_scope.

Lemma date_gt_spec (a b : date) :
  date_gt a b = true ↔
    year b < year a
    ∨ year b = year a
      ∧ (month b < month a ∨ month b = month a ∧ day b < day a).
Proof.
  unfold date_gt.
  rewrite !orb_true_iff, !andb_true_iff, !orb_true_iff, !andb_true_iff,
    !Z.ltb_lt, !Z.eqb_eq.
  done.
Qed.

Lemma date_gt_irrefl (d : date) : date_gt d d = false.
Proof.
  destruct (date_gt d d) eqn:E; [|done].
  apply date_gt_spec in E. lia.
Qed.

Lemma date_gt_trans (a b c : date) :
  date_gt a b = true → date_gt b c = true → date_gt a c = true.
Proof. rewrite !date_gt_spec. lia. Qed.

Lemma same_month_distance (t d : date) :
  same_month t d = true → month_distance t d = 0.
Proof.
  unfold same_month, month_distance.
  rewrite andb_true_iff, !Z.eqb_eq. intros [-> ->]. lia.
Qed.

Lemma month_distance_nonneg (t d : date) : 0 ≤ month_distance t d.
Proof. unfold month_distance. lia. Qed.

(** For a value row other than 17 and 20, an iteration depends on the row
    only through its entry, and never raises. *)
Lemma row_step_entry (value_row date_row : Z) (t : date) (row : progress_row)
    (st : loop_state) :
  value_row ≠ 17 → value_row ≠ 20 →
  row_step value_row date_row t row st
  = match entry_of value_row date_row row with
    | Some (x, d) => match_month t x d st
    | None => Continue st
    end.
Proof.
  intros H17 H20.
  unfold row_step, entry_of, associated_date, entry_date_of.
  destruct (row_notes row) as [notes|]; cbn [mbind option_bind]; [|done].
  destruct (extract_excel_row_data notes value_row) as [[x|s]|] eqn:E;
    cbn [mbind option_bind to_float]; [| |done].
  - destruct (extract_excel_row_data notes date_row) as [[y|s]|].
    + destruct (float_is_zero y); [|done].
      destruct (row_entry_date row) as [|s|d]; [done| |done].
      by destruct (strptime_ymd s).
    + by destruct (strptime_ymd s).
    + destruct (row_entry_date row) as [|s|d]; [done| |done].
      by destruct (strptime_ymd s).
  - apply extract_excel_row_data_str_rows in E. lia.
Qed.

Lemma best_so_far_skip (t : date) (es : list (option (pyfloat * date)))
    (st : loop_state) :
  best_so_far t es st → best_so_far t (es ++ [None]) st.
Proof.
  intros [Hm Hb]. split.
  - intros x d Hin. apply elem_of_app in Hin as [Hin|Hin]; [by eapply Hm|].
    by apply list_elem_of_singleton in Hin.
  - destruct (closest_distance st) as [cd|].
    + destruct Hb as (x & d & Hin & Hv & Hd & Hcd & Hall).
      exists x, d. split; [apply elem_of_app; by left|].
      repeat split; try done.
      intros x' d' Hin'. apply elem_of_app in Hin' as [Hin'|Hin'];
        [by eapply Hall|]. by apply list_elem_of_singleton in Hin'.
    + destruct Hb as (Hv & Hd & Hall). repeat split; try done.
      intros e He. apply elem_of_app in He as [He|He]; [by apply Hall|].
      by apply list_elem_of_singleton in He.
Qed.

Lemma match_month_break (t : date) (x : pyfloat) (d : date)
    (st : loop_state) :
  same_month t d = true →
  match_month t x d st = Break (LoopState (Some x) (Some 0) (closest_date st)).
Proof. intros E. unfold match_month. by rewrite E. Qed.

Lemma match_month_continue (t : date) (x : pyfloat) (d : date)
    (es : list (option (pyfloat * date))) (st : loop_state) :
  same_month t d = false → best_so_far t es st →
  ∃ st', match_month t x d st = Continue st'
         ∧ best_so_far t (es ++ [Some (x, d)]) st'.
Proof.
  intros E [Hm Hb]. unfold match_month. rewrite E.
  assert (Hm' : ∀ x0 d0, Some (x0, d0) ∈ es ++ [Some (x, d)] →
                         same_month t d0 = false).
  { intros x0 d0 Hin. apply elem_of_app in Hin as [Hin|Hin]; [by eapply Hm|].
    apply list_elem_of_singleton in Hin. by injection Hin as -> ->. }
  assert (Hnew : Some (x, d) ∈ es ++ [Some (x, d)]).
  { apply elem_of_app. right. by apply list_elem_of_singleton. }
  pose proof (date_gt_irrefl d) as Hirr.
  destruct (closest_distance st) as [cd|] eqn:Ecd.
  - destruct Hb as (x0 & d0 & Hin0 & Hv0 & Hd0 & Hcd & Hall).
    rewrite Hd0.
    assert (Hold : Some (x0, d0) ∈ es ++ [Some (x, d)])
      by (apply elem_of_app; by left).
    destruct (month_distance t d <? cd) eqn:Elt.
    + apply Z.ltb_lt in Elt. eexists. split; [reflexivity|].
      split; [done|]. cbn. exists x, d. repeat split; try done.
      intros x' d' Hin'. apply elem_of_app in Hin' as [Hin'|Hin'].
      * destruct (Hall x' d' Hin') as [Hlt|[Heq _]]; left; lia.
      * apply list_elem_of_singleton in Hin'. injection Hin' as -> ->.
        by right.
    + apply Z.ltb_ge in Elt.
      destruct (month_distance t d =? cd) eqn:Eeq.
      * apply Z.eqb_eq in Eeq.
        destruct (date_gt d d0) eqn:Egt.
        -- eexists. split; [reflexivity|]. split; [done|]. cbn.
           exists x, d. repeat split; try done.
           intros x' d' Hin'. apply elem_of_app in Hin' as [Hin'|Hin'].
           ++ destruct (Hall x' d' Hin') as [Hlt|[Heq Hgt]]; [left; lia|].
              right. split; [lia|].
              destruct (date_gt d' d) eqn:Egt'; [|done].
              by rewrite (date_gt_trans d' d d0) in Hgt.
           ++ apply list_elem_of_singleton in Hin'. injection Hin' as -> ->.
              by right.
        -- eexists. split; [reflexivity|]. split; [done|].
           rewrite Ecd. exists x0, d0. repeat split; try done.
           intros x' d' Hin'. apply elem_of_app in Hin' as [Hin'|Hin'];
             [by apply (Hall x' d')|].
           apply list_elem_of_singleton in Hin'. injection Hin' as -> ->.
           right. split; [lia|done].
      * apply Z.eqb_neq in Eeq.
        eexists. split; [reflexivity|]. split; [done|].
        rewrite Ecd. exists x0, d0. repeat split; try done.
        intros x' d' Hin'. apply elem_of_app in Hin' as [Hin'|Hin'];
          [by apply (Hall x' d')|].
        apply list_elem_of_singleton in Hin'. injection Hin' as -> ->.
        left. lia.
  - destruct Hb as (Hv & Hd & Hall).
    eexists. split; [reflexivity|]. split; [done|]. cbn.
    exists x, d. repeat split; try done.
    intros x' d' Hin'. apply elem_of_app in Hin' as [Hin'|Hin'].
    + by apply Hall in Hin'.
    + apply list_elem_of_singleton in Hin'. injection Hin' as -> ->.
      by right.
Qed.

(** In general an iteration raises only on a row without an entry (its
    value is a string that [float()] rejects), and otherwise depends on
    the row only through its entry. *)
Lemma row_step_cases (value_row date_row : Z) (t : date) (row : progress_row)
    (st : loop_state) :
  (row_step value_row date_row t row st = Raise
   ∧ entry_of value_row date_row row = None)
  ∨ row_step value_row date_row t row st
    = match entry_of value_row date_row row with
      | Some (x, d) => match_month t x d st
      | None => Continue st
      end.
Proof.
  unfold row_step, entry_of, associated_date, entry_date_of.
  destruct (row_notes row) as [notes|]; cbn [mbind option_bind]; [|by right].
  destruct (extract_excel_row_data notes value_row) as [decoded|];
    cbn [mbind option_bind]; [|by right].
  destruct (to_float decoded) as [value|]; cbn [mbind option_bind];
    [|by left].
  right.
  destruct (extract_excel_row_data notes date_row) as [[y|s]|].
  - destruct (float_is_zero y); [|done].
    destruct (row_entry_date row) as [|s|d]; [done| |done].
    by destruct (strptime_ymd s).
  - by destruct (strptime_ymd s).
  - destruct (row_entry_date row) as [|s|d]; [done| |done].
    by destruct (strptime_ymd s).
Qed.

(** The loop, unless an exception leaves it, either runs to the end,
    keeping the best entry, or stops at the first entry of the target
    month. *)
Lemma run_rows_result (value_row date_row : Z) (t : date)
    (rows pre : list progress_row) (st : loop_state) :
  best_so_far t (entry_of value_row date_row <$> pre) st →
  run_rows value_row date_row t rows st = None
  ∨ ∃ st', run_rows value_row date_row t rows st = Some st'
    ∧ (best_so_far t (entry_of value_row date_row <$> pre ++ rows) st'
       ∨ ∃ rows1 row rows2 x d,
           rows = rows1 ++ row :: rows2
           ∧ entry_of value_row date_row row = Some (x, d)
           ∧ same_month t d = true
           ∧ closest_value st' = Some x
           ∧ ∀ x' d', Some (x', d')
                        ∈ entry_of value_row date_row <$> pre ++ rows1 →
                      same_month t d' = false).
Proof.
  revert pre st.
  induction rows as [|row rows IH]; intros pre st Hbest.
  - right. exists st. split; [done|]. left. by rewrite app_nil_r.
  - cbn [run_rows].
    destruct (row_step_cases value_row date_row t row st) as [[-> _]| ->];
      [by left|].
    destruct (entry_of value_row date_row row) as [[x d]|] eqn:Ee.
    + destruct (same_month t d) eqn:Em.
      * rewrite match_month_break by done. right. eexists. split; [done|].
        right. exists [], row, rows, x, d. rewrite app_nil_r.
        repeat split; try done. apply Hbest.
      * destruct (match_month_continue t x d _ st Em Hbest)
          as (st1 & -> & Hbest1).
        destruct (IH (pre ++ [row]) st1) as [Hnone|(st' & Hrun & Hres)].
        { rewrite fmap_app. cbn [fmap list_fmap]. by rewrite Ee. }
        { by left. }
        right. exists st'. split; [done|].
        rewrite <- app_assoc in Hres. cbn [app] in Hres.
        destruct Hres as [Hres|(rows1 & row' & rows2 & x' & d' & -> & Hres)];
          [by left|].
        right. exists (row :: rows1), row', rows2, x', d'.
        split; [done|].
        by rewrite <- app_assoc in Hres.
    + destruct (IH (pre ++ [row]) st) as [Hnone|(st' & Hrun & Hres)].
      { rewrite fmap_app. cbn [fmap list_fmap]. rewrite Ee.
        by apply best_so_far_skip. }
      { by left. }
      right. exists st'. split; [done|].
      rewrite <- app_assoc in Hres. cbn [app] in Hres.
      destruct Hres as [Hres|(rows1 & row' & rows2 & x' & d' & -> & Hres)];
        [by left|].
      right. exists (row :: rows1), row', rows2, x', d'.
      split; [done|].
      by rewrite <- app_assoc in Hres.
Qed.

(** No exception leaves the loop when no iteration raises. *)
Lemma run_rows_is_some (value_row date_row : Z) (t : date)
    (rows : list progress_row) (st : loop_state) :
  (∀ row st0, row ∈ rows →
     row_step value_row date_row t row st0 ≠ Raise) →
  is_Some (run_rows value_row date_row t rows st).
Proof.
  revert st. induction rows as [|row rows IH]; intros st Hok; [by eexists|].
  cbn [run_rows].
  pose proof (Hok row st (list_elem_of_here _ _)) as Hrow.
  destruct (row_step value_row date_row t row st) as [st1|st1|];
    [|by eexists|done].
  apply IH. intros row' st0 Hin. by apply Hok, list_elem_of_further.
Qed.

Lemma match_month_not_raise (t : date) (x : pyfloat) (d : date)
    (st : loop_state) :
  match_month t x d st ≠ Raise.
Proof.
  unfold match_month. destruct (same_month t d); [done|].
  by destruct (closest_distance st) as [cd|];
    repeat match goal with
      | |- context [if ?c then _ else _] => destruct c
      | |- context [match ?c with _ => _ end] => destruct c
      end.
Qed.

Lemma entry_of_value (value_row date_row : Z) (row : progress_row)
    (e : pyfloat * date) :
  entry_of value_row date_row row = Some e →
  value_of value_row row ≠ None.
Proof.
  unfold entry_of, value_of.
  destruct (row_notes row) as [notes|]; cbn [mbind option_bind]; [|done].
  by destruct (extract_excel_row_data notes value_row).
Qed.

Lemma best_so_far_initial (t : date) : best_so_far t [] initial_state.
Proof.
  split; [intros x d Hin; by apply elem_of_nil in Hin|].
  cbn. repeat split. intros e He. by apply elem_of_nil in He.
Qed.

Lemma entry_in_rows (value_row date_row : Z) (rows : list progress_row)
    (e : pyfloat * date) :
  Some e ∈ entry_of value_row date_row <$> rows ↔
  ∃ row, row ∈ rows ∧ entry_of value_row date_row row = Some e.
Proof.
  rewrite list_elem_of_fmap. split; intros (row & H1 & H2); eauto.
Qed.

(** C4: for a period whose midpoint is [t], [get_closest_monthly_value]
    returns the decoded value of an entry of the frame whose date is
    nearest in months to [t].  An entry in the month of [t] is taken at
    once: it is the first such entry.  Otherwise, among the entries at the
    same distance none has a later date.  With a value row other than the
    date rows 17 and 20, a value is returned as soon as one row has a
    value and a date; the value of a single such row is returned whatever
    it is, zero included; [None] is returned when no row has a decodable
    value. *)
Theorem get_closest_monthly_value_nearest (rows : list progress_row)
    (period_start period_end : period_date) (value_row date_row : Z)
    (a b t : date) :
  as_date period_start = Some a → as_date period_end = Some b →
  midpoint a b = Some t →
  let res :=
    get_closest_monthly_value rows period_start period_end value_row
      date_row in
  let entry := entry_of value_row date_row in
  ((∀ row, row ∈ rows → value_of value_row row = None) → res = None)
  ∧ (value_row ≠ 17 → value_row ≠ 20 →
     (∃ row, row ∈ rows ∧ is_Some (entry row)) → is_Some res)
  ∧ (∀ row v d, rows = [row] → entry row = Some (v, d) → res = Some v)
  ∧ (∀ v, res = Some v →
       ∃ (i : nat) row d,
         rows !! i = Some row ∧ entry row = Some (v, d)
         ∧ (∀ row' v' d', row' ∈ rows → entry row' = Some (v', d') →
              month_distance t d ≤ month_distance t d')
         ∧ (same_month t d = true →
            ∀ (j : nat) row' v' d',
              (j < i)%nat → rows !! j = Some row' →
              entry row' = Some (v', d') → same_month t d' = false)
         ∧ (same_month t d = false →
            ∀ row' v' d', row' ∈ rows → entry row' = Some (v', d') →
              month_distance t d' = month_distance t d →
              date_gt d' d = false)).
Proof.
  intros Ha Hb Ht. cbv zeta.
  assert (Hmain :
    (∀ v, get_closest_monthly_value rows period_start period_end value_row
            date_row = Some v →
       ∃ (i : nat) row d,
         rows !! i = Some row ∧ entry_of value_row date_row row = Some (v, d)
         ∧ (∀ row' v' d', row' ∈ rows →
              entry_of value_row date_row row' = Some (v', d') →
              month_distance t d ≤ month_distance t d')
         ∧ (same_month t d = true →
            ∀ (j : nat) row' v' d',
              (j < i)%nat → rows !! j = Some row' →
              entry_of value_row date_row row' = Some (v', d') →
              same_month t d' = false)
         ∧ (same_month t d = false →
            ∀ row' v' d', row' ∈ rows →
              entry_of value_row date_row row' = Some (v', d') →
              month_distance t d' = month_distance t d →
              date_gt d' d = false))
    ∧ (is_Some (run_rows value_row date_row t rows initial_state) →
       (∃ row, row ∈ rows ∧ is_Some (entry_of value_row date_row row)) →
       is_Some (get_closest_monthly_value rows period_start period_end
                  value_row date_row))).
  { unfold get_closest_monthly_value. rewrite Ha, Hb, Ht.
    destruct rows as [|row0 rows0] eqn:Erows.
    { split; [done|]. intros _ (row & Hin & _). by apply elem_of_nil in Hin. }
    rewrite <- Erows in *. clear Erows row0 rows0.
    destruct (run_rows_result value_row date_row t rows [] initial_state
                (best_so_far_initial t)) as [Hnone|(st' & Hrun & Hres)].
    { rewrite Hnone. split; [done|]. by intros [? ?]. }
    rewrite Hrun. cbn [app] in Hres.
    destruct Hres as [[Hm Hbest]|(rows1 & row & rows2 & x & d & -> & He & Hs
                                  & Hv & Hbefore)].
    - destruct (closest_distance st') as [cd|].
      + destruct Hbest as (x & d & Hin & Hv & Hd & Hcd & Hall).
        rewrite Hv. split; [|eauto].
        intros v [= <-].
        pose proof Hin as Hin'.
        apply list_elem_of_lookup in Hin' as [i Hi].
        apply list_lookup_fmap_Some in Hi as (row & Hrow & Hi).
        exists i, row, d. repeat split; try done.
        * intros row' v' d' Hin' He'.
          destruct (Hall v' d') as [Hlt|[Heq _]]; [|lia..].
          apply entry_in_rows. eauto.
        * intros Hs. rewrite (Hm x d Hin) in Hs. done.
        * intros _ row' v' d' Hin' He' Heq.
          destruct (Hall v' d') as [Hlt|[_ Hgt]]; [|lia|done].
          apply entry_in_rows. eauto.
      + destruct Hbest as (Hv & Hd & Hall). rewrite Hv. split; [done|].
        intros _ (row & Hin & [e He]).
        assert (Hnone : Some e = None); [|done].
        apply Hall, entry_in_rows. eauto.
    - rewrite Hv. split; [|eauto].
      intros v [= <-].
      exists (length rows1), row, d.
      split; [by rewrite list_lookup_middle|]. split; [done|].
      split; [|split].
      + intros row' v' d' _ _. rewrite (same_month_distance t d Hs).
        apply month_distance_nonneg.
      + intros _ j row' v' d' Hj Hrow' He'.
        rewrite lookup_app_l in Hrow' by done.
        apply (Hbefore v' d'). apply entry_in_rows.
        exists row'. split; [|done]. by eapply list_elem_of_lookup_2.
      + intros Hs'. by rewrite Hs in Hs'. }
  destruct Hmain as [Hsome Hex].
  split; [|split; [|split; [|exact Hsome]]].
  - intros Hnone.
    destruct (get_closest_monthly_value _ _ _ _ _) as [v|] eqn:E; [|done].
    destruct (Hsome v eq_refl) as (i & row & d & Hrow & He & _).
    apply entry_of_value in He. exfalso. apply He, Hnone.
    by eapply list_elem_of_lookup_2.
  - intros H17 H20. apply Hex, run_rows_is_some.
    intros row st0 _. rewrite row_step_entry by done.
    destruct (entry_of value_row date_row row) as [[x d]|]; [|done].
    apply match_month_not_raise.
  - intros row v d -> He.
    destruct Hex as [v' Hv'].
    { apply run_rows_is_some. intros row' st0 Hin.
      apply list_elem_of_singleton in Hin as ->.
      destruct (row_step_cases value_row date_row t row st0) as [[_ Hn]| ->];
        [congruence|].
      rewrite He. apply match_month_not_raise. }
    { exists row. split; [apply list_elem_of_here|]. by rewrite He. }
    rewrite Hv'. destruct (Hsome v' Hv') as (i & row' & d' & Hrow & He' & _).
    destruct i as [|i]; [|done]. cbn in Hrow. injection Hrow as <-.
    rewrite He in He'. by injection He' as -> _.
Qed.

End ClosestLookup.

Lemma get_closest_monthly_value_nearest_witness :
  let rows :=
    [ProgressRow (Some (py "R21:5|R20:2023-11-15")) EDMissing;
     ProgressRow (Some (py "R21:0|R20:0")) (EDStr (py "2024-01-20"))] in
  midpoint (Date 2023 12 1) (Date 2023 12 31) = Some (Date 2023 12 16)
  ∧ is_Some (get_closest_monthly_value rows (PStr (py "2023-12-01"))
               (PDate (Date 2023 12 31)) 21 20).
Proof.
  intros rows. split; [vm_compute; reflexivity|].
  apply (get_closest_monthly_value_nearest rows (PStr (py "2023-12-01"))
           (PDate (Date 2023 12 31)) 21 20
           (Date 2023 12 1) (Date 2023 12 31) (Date 2023 12 16));
    [vm_compute; reflexivity | reflexivity | vm_compute; reflexivity
    | lia | lia |].
  exists (ProgressRow (Some (py "R21:5|R20:2023-11-15")) EDMissing).
  split; [apply list_elem_of_here|].
  vm_compute. eexists. reflexivity.
Defined.

(** Two entries one month away on either side: the later one wins, and its
    value, zero, is returned. *)
Example get_closest_monthly_value_zero :
  get_closest_monthly_value
    [ProgressRow (Some (py "R21:5|R20:2023-11-15")) EDMissing;
     ProgressRow (Some (py "R21:0|R20:0")) (EDStr (py "2024-01-20"))]
    (PStr (py "2023-12-01")) (PDate (Date 2023 12 31)) 21 20
  = Some (Finite 0).
Proof. vm_compute. reflexivity. Qed.

(** ** Finding a key and its value text *)
Section KeySearch.

Lemma str_startswith_within (p s rest : pystr) :
  str_startswith p (s ++ rest) = true → length p ≤ length s →
  str_startswith p s = true.
Proof.
  rewrite !str_startswith_spec. intros [r Hr] Hlen.
  exists (drop (length p) s).
  rewrite <- (take_drop (length p) s) at 1. f_equal.
  apply (f_equal (take (length p))) in Hr.
  rewrite take_app_le in Hr by done. by rewrite take_app_length in Hr.
Qed.

(** The first occurrence of a key stays the first when text follows. *)
Lemma str_find_first_extend (key pre rest : pystr) :
  str_find key (pre ++ key) = Some (length pre) →
  str_find key (pre ++ key ++ rest) = Some (length pre).
Proof.
  induction pre as [|c pre IH]; cbn [app length].
  - intros _. apply str_find_here, str_startswith_app.
  - rewrite (str_find_unfold key (c :: pre ++ key)).
    destruct (str_startswith key (c :: pre ++ key)) eqn:E; [done|].
    destruct (str_find key (pre ++ key)) as [n|] eqn:F; [|done].
    cbn [fmap option_fmap option_map]. intros [= ->]. rewrite str_find_unfold.
    destruct (str_startswith key (c :: pre ++ key ++ rest)) eqn:E'.
    + exfalso. rewrite (app_assoc pre key rest) in E'.
      apply (str_startswith_within key (c :: pre ++ key) rest) in E'.
      * congruence.
      * cbn. rewrite length_app. lia.
    + by rewrite IH.
Qed.

(** ... and when text in front is removed. *)
Lemma str_find_first_suffix (key a pre : pystr) :
  str_find key ((a ++ pre) ++ key) = Some (length (a ++ pre)) →
  str_find key (pre ++ key) = Some (length pre).
Proof.
  induction a as [|c a IH]; cbn [app length]; [done|].
  rewrite str_find_unfold.
  destruct (str_startswith key _); [done|].
  destruct (str_find key ((a ++ pre) ++ key)) as [n|] eqn:F; [|done].
  cbn [fmap option_fmap option_map]. intros [= ->]. by apply IH.
Qed.

Lemma str_lstrip_app (x : pystr) (c : N) (y : pystr) :
  is_space c = false → str_lstrip (x ++ c :: y) = str_lstrip x ++ c :: y.
Proof.
  intros Hc. induction x as [|a x IH]; cbn; [by rewrite Hc|].
  by destruct (is_space a).
Qed.

Lemma str_rstrip_app (a : pystr) (c : N) (b : pystr) :
  is_space c = false → str_rstrip (a ++ c :: b) = a ++ c :: str_rstrip b.
Proof.
  intros Hc. unfold str_rstrip.
  rewrite reverse_app, reverse_cons, <- app_assoc. cbn [app].
  rewrite str_lstrip_app by done.
  by rewrite reverse_app, reverse_cons, reverse_involutive, <- app_assoc.
Qed.

Lemma str_strip_plain (s : pystr) :
  forallb (λ c, negb (is_space c)) s = true → str_strip s = s.
Proof.
  intros Hs. unfold str_strip.
  assert (Hl : ∀ t, forallb (λ c, negb (is_space c)) t = true →
                    str_lstrip t = t).
  { intros [|c t]; [done|]. cbn. by destruct (is_space c). }
  rewrite (Hl s Hs). unfold str_rstrip. rewrite Hl.
  - apply reverse_involutive.
  - apply forallb_forall. intros c Hc.
    rewrite forallb_forall in Hs. apply Hs.
    apply list_elem_of_In, elem_of_reverse, list_elem_of_In. exact Hc.
Qed.

(** A single character that does not occur. *)
Lemma str_find_char_absent (c : N) (s : pystr) :
  forallb (λ x, negb (x =? c)%N) s = true → str_find [c] s = None.
Proof.
  induction s as [|x s IH]; [done|]. cbn [forallb].
  rewrite andb_true_iff, negb_true_iff, N.eqb_neq. intros [Hx Hs].
  rewrite str_find_unfold. cbn [str_startswith].
  assert ((c =? x)%N = false) as -> by (apply N.eqb_neq; congruence).
  cbn. by rewrite IH.
Qed.

Lemma str_find_char_after (c : N) (s q : pystr) :
  forallb (λ x, negb (x =? c)%N) s = true →
  str_find [c] (s ++ c :: q) = Some (length s).
Proof.
  induction s as [|x s IH]; cbn [forallb app length].
  - intros _. apply str_find_here. cbn. by rewrite N.eqb_refl.
  - rewrite andb_true_iff, negb_true_iff, N.eqb_neq. intros [Hx Hs].
    rewrite str_find_unfold. cbn [str_startswith].
    assert ((c =? x)%N = false) as -> by (apply N.eqb_neq; congruence).
    cbn. by rewrite IH.
Qed.

(** The value text under a key: what lies between its first occurrence
    and the next ["|"]. *)
Lemma value_text_at (key pre val post : pystr) :
  str_find key (pre ++ key) = Some (length pre) →
  forallb (λ x, negb (x =? 124)%N) val = true →
  post = [] ∨ (∃ q, post = 124%N :: q) →
  value_text (pre ++ key ++ val ++ post) key = Some (str_strip val).
Proof.
  intros Hfirst Hval Hpost. unfold value_text.
  rewrite (str_find_first_extend key pre (val ++ post) Hfirst).
  cbv zeta. unfold str_find_from, str_slice.
  assert (Hdrop : drop (length pre + length key) (pre ++ key ++ val ++ post)
                  = val ++ post).
  { rewrite (app_assoc pre key), <- length_app. apply drop_app_length. }
  rewrite Hdrop. change (py "|") with [124%N].
  destruct Hpost as [->|[q ->]].
  - rewrite app_nil_r in *. rewrite (str_find_char_absent 124 val Hval).
    cbn [fmap option_fmap option_map].
    f_equal. f_equal. apply take_ge.
    rewrite !length_app. lia.
  - rewrite (str_find_char_after 124 val q Hval).
    cbn [fmap option_fmap option_map].
    f_equal. f_equal.
    replace (length pre + length key + length val
             - (length pre + length key)) with (length val) by lia.
    apply take_app_length.
Qed.

End KeySearch.

(** ** Number texts pass the cleaning steps unchanged *)
Section NumberTexts.
Context `{PyBuiltins}.

Ltac literals :=
  repeat match goal with
    | |- context [py ?x] =>
        let v := eval vm_compute in (py x) in change (py x) with v
    end.

Lemma numeric_char_forall (P : N → bool) (c : N) :
  numeric_char c = true →
  forallb P [43; 45; 46; 48; 49; 50; 51; 52; 53; 54; 55; 56; 57; 101]%N
  = true →
  P c = true.
Proof.
  unfold numeric_char.
  rewrite !orb_true_iff, andb_true_iff, !N.leb_le, !N.eqb_eq.
  intros Hc. cbn [forallb]. rewrite !andb_true_iff.
  intros (?&?&?&?&?&?&?&?&?&?&?&?&?&?&_).
  assert (c = 43 ∨ c = 45 ∨ c = 46 ∨ c = 48 ∨ c = 49 ∨ c = 50 ∨ c = 51
          ∨ c = 52 ∨ c = 53 ∨ c = 54 ∨ c = 55 ∨ c = 56 ∨ c = 57
          ∨ c = 101)%N as Hcases by lia.
  repeat (destruct Hcases as [->|Hcases]; [assumption|]).
  by subst.
Qed.

Lemma numeric_forall (P : N → bool) (s : pystr) :
  forallb numeric_char s = true →
  forallb P [43; 45; 46; 48; 49; 50; 51; 52; 53; 54; 55; 56; 57; 101]%N
  = true →
  forallb P s = true.
Proof.
  intros Hs HP. apply forallb_forall. intros c Hc.
  apply numeric_char_forall; [|done].
  rewrite forallb_forall in Hs. by apply Hs.
Qed.

Lemma numeric_text_spec (s : pystr) :
  numeric_text s = true →
  s ≠ [] ∧ s ≠ [45%N] ∧ forallb numeric_char s = true.
Proof.
  unfold numeric_text.
  rewrite !andb_true_iff, !negb_true_iff. intros [[H1 H2] H3].
  repeat split; [| |done]; intros ->; [by vm_compute in H1|by vm_compute in H2].
Qed.

Lemma numeric_str_in (s : pystr) (words : list pystr) :
  numeric_text s = true →
  forallb (λ w, str_eqb w [] || str_eqb w [45%N]
                || negb (forallb numeric_char w)) words = true →
  str_in s words = false.
Proof.
  intros Hs Hw. apply numeric_text_spec in Hs as (Hne & Hminus & Hnum).
  destruct (str_in s words) eqn:E; [|done]. exfalso.
  apply str_in_true in E.
  rewrite forallb_forall in Hw.
  apply list_elem_of_In, Hw in E.
  rewrite !orb_true_iff, negb_true_iff, !str_eqb_eq in E.
  destruct E as [[E|E]|E]; congruence.
Qed.

Lemma str_lower_numeric (s : pystr) :
  forallb numeric_char s = true → str_lower s = s.
Proof.
  intros Hs. unfold str_lower.
  pose proof (numeric_forall (λ c, lower_char c =? c)%N s Hs eq_refl) as Hl.
  clear Hs. induction s as [|c s IH]; [done|].
  cbn [forallb] in Hl. apply andb_true_iff in Hl as [Hc Hl].
  apply N.eqb_eq in Hc. cbn [map]. by rewrite Hc, IH.
Qed.

Lemma str_replace_absent (c : N) (new s : pystr) :
  forallb (λ x, negb (x =? c)%N) s = true → str_replace [c] new s = s.
Proof.
  unfold str_replace. induction s as [|x s IH]; [done|].
  cbn [forallb]. rewrite andb_true_iff, negb_true_iff, N.eqb_neq.
  intros [Hx Hs]. cbn [str_replace_go str_startswith].
  assert ((c =? x)%N = false) as -> by (apply N.eqb_neq; congruence).
  cbn [andb]. by rewrite IH.
Qed.

Lemma str_contains_absent (c : N) (s : pystr) :
  forallb (λ x, negb (x =? c)%N) s = true → str_contains [c] s = false.
Proof. intros Hs. unfold str_contains. by rewrite str_find_char_absent. Qed.

(** On a number text the numeric branch is just [float()] and the size
    guard. *)
Lemma decode_number_value_numeric (s : pystr) :
  numeric_text s = true →
  decode_number_value s
  = match float_of_str s with
    | Some result =>
        if float_gt (float_abs result) (inject_Z (10 ^ 15)) then None
        else Some (VFloat result)
    | None => None
    end.
Proof.
  intros Hs. pose proof (numeric_text_spec s Hs) as (Hne & Hminus & Hnum).
  unfold decode_number_value. cbv zeta.
  rewrite (str_strip_plain s)
    by (apply (numeric_forall (λ c, negb (is_space c))); done).
  rewrite str_lower_numeric by done.
  rewrite (numeric_str_in s empty_symbols) by (done || by vm_compute).
  cbn [orb].
  unfold arabic_to_english. cbn [foldl fst snd]. literals.
  rewrite !(str_replace_absent _ _ s)
    by (apply numeric_forall; [assumption | reflexivity]).
  rewrite str_contains_absent
    by (apply numeric_forall; [assumption | reflexivity]).
  done.
Qed.

Lemma decode_value_numeric (row_number : Z) (s : pystr) :
  row_number ≠ 17%Z → row_number ≠ 20%Z → numeric_text s = true →
  decode_value row_number s = decode_number_value s.
Proof.
  intros H17 H20 Hs.
  pose proof (numeric_text_spec s Hs) as (Hne & Hminus & Hnum).
  unfold decode_value.
  rewrite bool_decide_eq_false_2 by done.
  rewrite str_lower_numeric by done.
  rewrite (numeric_str_in s) by (done || by vm_compute).
  rewrite bool_decide_eq_false_2 by lia. done.
Qed.

Lemma extract_excel_row_data_unfold (notes_str : pystr) (row_number : Z) :
  notes_str ≠ [] →
  extract_excel_row_data notes_str row_number
  = value_text (str_strip notes_str) (row_key row_number)
      ≫= decode_value row_number.
Proof.
  intros Hne. destruct notes_str as [|c n]; [done|].
  unfold extract_excel_row_data, value_text, decode_value.
  by destruct (str_find _ _).
Qed.

(** Stripping the notes leaves a key and a number text after it in place. *)
Lemma str_strip_around (pre key' val post : pystr) :
  numeric_text val = true →
  post = [] ∨ (∃ q, post = 124%N :: q) →
  ∃ a pre' post',
    pre = a ++ pre'
    ∧ (post' = [] ∨ ∃ q, post' = 124%N :: q)
    ∧ str_strip (pre ++ (82%N :: key') ++ val ++ post)
      = pre' ++ (82%N :: key') ++ val ++ post'.
Proof.
  intros Hval Hpost.
  apply numeric_text_spec in Hval as (Hne & _ & Hnum).
  destruct (str_lstrip_suffix pre) as [a Ha].
  unfold str_strip. cbn [app]. rewrite str_lstrip_app by done.
  destruct Hpost as [->|[q ->]].
  - exists a, (str_lstrip pre), []. split; [done|]. split; [by left|].
    rewrite app_nil_r.
    destruct val as [|c val0 _] using rev_ind; [done|].
    rewrite forallb_app in Hnum. cbn in Hnum.
    apply andb_true_iff in Hnum as [_ Hc].
    apply andb_true_iff in Hc as [Hc _].
    change (str_lstrip pre ++ 82%N :: key' ++ val0 ++ [c])
      with (str_lstrip pre ++ (82%N :: key') ++ val0 ++ [c]).
    rewrite !app_assoc. rewrite str_rstrip_app.
    + done.
    + apply negb_true_iff.
      by apply (numeric_char_forall (λ c, negb (is_space c))).
  - exists a, (str_lstrip pre), (124%N :: str_rstrip q).
    split; [done|]. split; [right; eauto|].
    change (str_lstrip pre ++ 82%N :: key' ++ val ++ 124%N :: q)
      with (str_lstrip pre ++ (82%N :: key') ++ val ++ 124%N :: q).
    rewrite !app_assoc. rewrite str_rstrip_app by done.
    by rewrite <- !app_assoc.
Qed.

(** The decoder of app.py on notes that hold a number text under the
    first occurrence of the key. *)
Lemma extract_excel_row_data_numeric (pre val post : pystr)
    (row_number : Z) :
  row_number ≠ 17%Z → row_number ≠ 20%Z →
  str_find (row_key row_number) (pre ++ row_key row_number)
  = Some (length pre) →
  numeric_text val = true →
  post = [] ∨ (∃ q, post = 124%N :: q) →
  extract_excel_row_data (pre ++ row_key row_number ++ val ++ post)
    row_number
  = match float_of_str val with
    | Some result =>
        if float_gt (float_abs result) (inject_Z (10 ^ 15)) then None
        else Some (VFloat result)
    | None => None
    end.
Proof.
  intros H17 H20 Hfirst Hval Hpost.
  pose proof (numeric_text_spec val Hval) as (Hne & _ & Hnum).
  rewrite extract_excel_row_data_unfold.
  2:{ change (row_key row_number)
        with (82%N :: (str_of_int row_number ++ py ":")).
      by destruct pre. }
  change (row_key row_number)
    with (82%N :: (str_of_int row_number ++ py ":")) in *.
  destruct (str_strip_around pre (str_of_int row_number ++ py ":") val post
              Hval Hpost) as (a & pre' & post' & -> & Hpost' & ->).
  apply str_find_first_suffix in Hfirst.
  rewrite (value_text_at _ pre' val post' Hfirst); [|
    by apply (numeric_forall (λ x, negb (x =? 124)%N)) | done].
  cbn [mbind option_bind].
  rewrite (str_strip_plain val)
    by (apply (numeric_forall (λ c, negb (is_space c))); done).
  rewrite decode_value_numeric by done.
  by apply decode_number_value_numeric.
Qed.

End NumberTexts.

(** ** Notes written in the mini-format *)
Section NotesFormat.
Context `{PyBuiltins}.

Lemma notes_fstring_format (f : note_fields) :
  notes_fstring f = notes_format (fields_items f).
Proof. reflexivity. Qed.

Lemma notes_format_cons (k : Z) (v : pystr) (rest : list (Z * pystr)) :
  rest ≠ [] →
  notes_format ((k, v) :: rest) = row_key k ++ v ++ 124%N :: notes_format rest.
Proof. by destruct rest. Qed.

Lemma differ_startswith (p a rest : pystr) :
  differ p a = true → str_startswith p (a ++ rest) = false.
Proof.
  revert a. induction p as [|x p IH]; intros [|y a]; cbn; try done.
  destruct (x =? y)%N; cbn; [|done]. apply IH.
Qed.

(** A block without the first character of the key is skipped. *)
Lemma str_find_skip_block (h : N) (key' block s : pystr) :
  forallb (λ c, negb (c =? h)%N) block = true →
  str_find (h :: key') (block ++ s)
  = (λ n, length block + n) <$> str_find (h :: key') s.
Proof.
  induction block as [|c block IH]; cbn [forallb app length].
  - intros _. by destruct (str_find _ _).
  - rewrite andb_true_iff, negb_true_iff, N.eqb_neq. intros [Hc Hb].
    rewrite str_find_unfold. cbn [str_startswith].
    assert ((h =? c)%N = false) as -> by (apply N.eqb_neq; congruence).
    cbn [andb]. rewrite IH by done.
    destruct (str_find (h :: key') s); reflexivity.
Qed.

(** In notes of the mini-format whose values hold no ['R'], the first
    occurrence of a key is the item of that key. *)
Lemma notes_format_decompose (items : list (Z * pystr)) (row : Z)
    (val : pystr) :
  item_value row items = Some val →
  keys_apart row items = true →
  forallb (λ kv : Z * pystr, no_R kv.2) items = true →
  ∃ pre post,
    notes_format items = pre ++ row_key row ++ val ++ post
    ∧ str_find (row_key row) (pre ++ row_key row) = Some (length pre)
    ∧ (post = [] ∨ ∃ q, post = 124%N :: q).
Proof.
  induction items as [|[k v] rest IH]; [done|].
  cbn [item_value keys_apart forallb fst snd].
  rewrite !andb_true_iff.
  intros Hval [Hk Hkeys] [Hv Hvals].
  destruct (k =? row)%Z eqn:Ek.
  - apply Z.eqb_eq in Ek as ->. injection Hval as ->.
    exists [], (match rest with [] => [] | _ => 124%N :: notes_format rest end).
    split; [|split].
    + destruct rest; cbn [notes_format app]; by rewrite ?app_nil_r.
    + cbn [app length]. apply str_find_here.
      rewrite <- (app_nil_r (row_key row)) at 2. apply str_startswith_app.
    + destruct rest; eauto.
  - cbn [orb] in Hk. apply andb_true_iff in Hk as [Hdiff Htail].
    assert (Hrest : rest ≠ []) by (intros ->; done).
    destruct (IH Hval Hkeys Hvals) as (pre & post & Heq & Hfirst & Hpost).
    exists (row_key k ++ v ++ 124%N :: pre), post.
    split; [|split; [|done]].
    + rewrite notes_format_cons, Heq by done.
      by rewrite <- !app_assoc.
    + change (row_key k) with (82%N :: tail (row_key k)).
      change (row_key row) with (82%N :: tail (row_key row)) in Hfirst |- *.
      rewrite <- !app_assoc. cbn [app].
      rewrite str_find_next.
      2:{ apply (differ_startswith _ (82%N :: tail (row_key k))). exact Hdiff. }
      rewrite (app_assoc (tail (row_key k)) v).
      change (124%N :: pre ++ 82%N :: tail (row_key row))
        with ([124%N] ++ pre ++ 82%N :: tail (row_key row)).
      rewrite (app_assoc _ [124%N]).
      rewrite str_find_skip_block.
      2:{ rewrite !forallb_app, Htail. unfold no_R in Hv. by rewrite Hv. }
      rewrite Hfirst. cbn [fmap option_fmap option_map]. f_equal.
      cbn [length]. rewrite !length_app. cbn [length]. lia.
Qed.

(** C2, as the code has it: a value written into the notes f-string of
    [import_project_template] under one of the numeric keys, as a text
    that [float()] reads back as the finite value [q], is decoded by
    [extract_excel_row_data] to that value -- provided its magnitude is
    at most 1e15 (larger values are rejected as errors). *)
Theorem notes_round_trip (f : note_fields) (row : Z) (s : pystr) (q : Q) :
  row ∈ [7; 8; 9; 10; 11; 12; 13; 18; 19; 21; 22]%Z →
  field_of row f = Some s →
  numeric_text s = true →
  forallb no_R (fields_list f) = true →
  float_of_str s = Some (Finite q) →
  (Qabs q <= inject_Z (10 ^ 15))%Q →
  extract_excel_row_data (notes_fstring f) row = Some (VFloat (Finite q)).
Proof.
  intros Hrow Hfield Hnum Hfields Hfloat Hsize.
  assert (H17 : row ≠ 17%Z ∧ row ≠ 20%Z).
  { apply list_elem_of_In in Hrow. cbn in Hrow. lia. }
  assert (Hitems : item_value row (fields_items f) = Some s
                   ∧ keys_apart row (fields_items f) = true).
  { apply list_elem_of_In in Hrow. cbn in Hrow.
    repeat (destruct Hrow as [<-|Hrow]; [split; [exact Hfield|reflexivity]|]).
    done. }
  destruct Hitems as [Hitem Hkeys].
  destruct (notes_format_decompose (fields_items f) row s Hitem Hkeys Hfields)
    as (pre & post & Heq & Hfirst & Hpost).
  rewrite notes_fstring_format, Heq.
  rewrite extract_excel_row_data_numeric by tauto.
  rewrite Hfloat. cbn [float_abs float_gt].
  apply Qle_bool_iff in Hsize. by rewrite Hsize.
Qed.

End NotesFormat.

Lemma notes_round_trip_witness :
  extract_excel_row_data (notes_fstring huge_cost_fields) 10
  = Some (VFloat (Finite (25 # 2))).
Proof.
  apply (notes_round_trip huge_cost_fields 10 (py "12.5") (25 # 2)).
  - apply list_elem_of_In. vm_compute. tauto.
  - reflexivity.
  - vm_compute. reflexivity.
  - vm_compute. reflexivity.
  - vm_compute. reflexivity.
  - vm_compute. discriminate.
Defined.

(** C2 as stated fails: 1e16 is a finite value, its text ["1e+16"] is read
    back by [float()] as 1e16, but the decoder returns [None]. *)
Lemma notes_round_trip_fails_above_1e15 :
  field_of 7 huge_cost_fields = Some (py "1e+16")
  ∧ float_of_str (py "1e+16") = Some (Finite (inject_Z (10 ^ 16)))
  ∧ extract_excel_row_data (notes_fstring huge_cost_fields) 7 = None
  ∧ extract_excel_row_data (notes_fstring huge_cost_fields) 7
    ≠ Some (VFloat (Finite (inject_Z (10 ^ 16)))).
Proof.
  split; [reflexivity|]. split; [vm_compute; reflexivity|].
  assert (E : extract_excel_row_data (notes_fstring huge_cost_fields) 7 = None)
    by (vm_compute; reflexivity).
  split; [exact E|]. rewrite E. discriminate.
Qed.

(** ** The decoder of the exporter *)
Section ExporterDecoder.
Context `{PyBuiltins}.








End ExporterDecoder.



(** ** Reports of the calculator *)
Section Reports.
Local Open Scope Q_scope.

Lemma performance_fold (d : db) (l : list record) (acc : list performance) :
  foldl (λ performance_data project,
           match project_kpi_of d project with
           | Some project_kpi =>
               performance_data ++ [performance_of project project_kpi]
           | None => performance_data
           end) acc l
  = acc ++ omap (λ project, performance_of project <$> project_kpi_of d project) l.
Proof.
  revert acc. induction l as [|p l IH]; intros acc; cbn [foldl omap list_omap].
  - by rewrite app_nil_r.
  - rewrite IH. destruct (project_kpi_of d p); cbn [fmap option_fmap option_map];
      [by rewrite <- app_assoc|done].
Qed.

Lemma dashboard_fold (f : pystr) (ts tc : Q) (d : db) (l : list record)
    (acc : list kpi) :
  foldl (dashboard_step f ts tc d) acc l
  = acc ++ filter (λ k, include_project f ts tc k = true)
             (omap (project_kpi_of d) l).
Proof.
  revert acc.
  induction l as [|p l IH]; intros acc; cbn [foldl omap list_omap].
  - by rewrite filter_nil, app_nil_r.
  - rewrite IH. unfold dashboard_step.
    destruct (project_kpi_of d p) as [k|] eqn:E; [|done].
    rewrite filter_cons.
    destruct (decide (include_project f ts tc k = true)) as [K|K].
    + rewrite K. by rewrite <- app_assoc.
    + by apply not_true_is_false in K as ->.
Qed.

Lemma filter_all {A : Type} (P : A → Prop) `{!∀ x, Decision (P x)}
    (l : list A) :
  (∀ x, P x) → filter P l = l.
Proof.
  intros HP. induction l as [|x l IH]; [done|].
  rewrite filter_cons, IH.
  destruct (decide (P x)) as [|n]; [done|destruct n; apply HP].
Qed.

Lemma filter_labels_distinct :
  all_projects ≠ status_on_track ∧ all_projects ≠ status_ahead
  ∧ all_projects ≠ status_delayed.
Proof. repeat split; vm_compute; discriminate. Qed.

(** X1: [get_all_projects_performance] lists, in the order of
    [calculate_portfolio_kpi]'s project details, the CPI, SPI, status and
    actual completion of the projects with a computable KPI: it is empty
    exactly when the portfolio KPI is [None], and otherwise has one entry
    per counted project, with the indicators of that project. *)
Theorem get_all_projects_performance_matches_portfolio (d : db) :
  (calculate_portfolio_kpi d = None ↔ get_all_projects_performance d = [])
  ∧ ∀ r, calculate_portfolio_kpi d = Some r →
      length (get_all_projects_performance d) = total_projects r
      ∧ (λ p, (perf_cpi p, perf_spi p, perf_status p, completion p))
          <$> get_all_projects_performance d
        = (λ k, (cpi k, spi k, status k, kpi_actual_completion k))
          <$> project_details r.
Proof.
  unfold get_all_projects_performance. rewrite performance_fold.
  cbn [app]. unfold calculate_portfolio_kpi.
  destruct (accumulate_fold d (get_all_projects d) (Totals 0 0 0 0 []))
    as (_ & _ & _ & Hn & Hd).
  cbv zeta in Hn, Hd. cbn [valid_projects acc_details app Nat.add] in Hn, Hd.
  assert (Hmap : ∀ l : list record,
    (λ p, (perf_cpi p, perf_spi p, perf_status p, completion p))
      <$> omap (λ project, performance_of project <$> project_kpi_of d project) l
    = (λ k, (cpi k, spi k, status k, kpi_actual_completion k))
      <$> omap (project_kpi_of d) l).
  { induction l as [|p l IH]; [done|]. cbn [omap list_omap].
    destruct (project_kpi_of d p); cbn; by rewrite ?IH. }
  assert (Hlen : ∀ l : list record,
    length (omap (λ project, performance_of project <$> project_kpi_of d project) l)
    = length (omap (project_kpi_of d) l)).
  { induction l as [|p l IH]; [done|]. cbn [omap list_omap].
    destruct (project_kpi_of d p); cbn; by rewrite ?IH. }
  destruct (get_all_projects d) as [|p l] eqn:Eall.
  { split; [done|]. intros r [=]. }
  set (t := foldl (accumulate d) (Totals 0 0 0 0 []) (p :: l)) in *.
  destruct (valid_projects t) as [|n] eqn:Hvalid.
  - split.
    + split; [intros _|done]. apply nil_length_inv. by rewrite Hlen, <- Hn.
    + intros r [=].
  - split.
    + split; [done|]. intros Hnil. apply (f_equal length) in Hnil.
      rewrite Hlen, <- Hn in Hnil. done.
    + intros r [= <-]. cbn [total_projects project_details].
      split; [by rewrite Hlen, <- Hn|]. by rewrite Hmap, Hd.
Qed.

(** X2: what [get_dashboard_data] keeps.  Under the filter "all projects"
    it returns every project with a computable KPI, whatever the
    thresholds; under a status other than "on track" it returns those of
    that status, again whatever the thresholds; only under "on track" do
    the thresholds count: a project is kept when its status is "on track"
    and neither its SPI nor its CPI is below its threshold. *)
Theorem get_dashboard_data_filters (status_filter : pystr)
    (spi_threshold cpi_threshold : Q) (d : db) :
  let result := get_dashboard_data status_filter spi_threshold cpi_threshold d in
  (status_filter = all_projects → result = computable_kpis d)
  ∧ (status_filter ≠ all_projects → status_filter ≠ status_on_track →
     result
     = filter (λ k, status k = status_filter) (computable_kpis d))
  ∧ (status_filter = status_on_track →
     result
     = filter (λ k, status k = status_on_track
                    ∧ spi_threshold <= spi k ∧ cpi_threshold <= cpi k)
         (computable_kpis d)).
Proof.
  destruct filter_labels_distinct as (Hall & _).
  cbv zeta. unfold get_dashboard_data, computable_kpis.
  rewrite dashboard_fold. cbn [app]. unfold include_project, less, str_eqb.
  revert Hall. generalize all_projects, status_on_track.
  intros all on_track Hall.
  split; [|split].
  - intros ->. apply filter_all. intros k.
    rewrite (bool_decide_eq_true_2 (all = all)) by reflexivity.
    rewrite (bool_decide_eq_false_2 (all = on_track)) by exact Hall.
    cbv beta zeta iota delta [negb]. by destruct (_ || _).
  - intros Hne Hnt. apply list_filter_iff. intros k.
    rewrite (bool_decide_eq_false_2 (status_filter = all)) by exact Hne.
    rewrite (bool_decide_eq_false_2 (status_filter = on_track)) by exact Hnt.
    cbv beta zeta iota delta [negb].
    destruct (decide (status k = status_filter)) as [E|E].
    + rewrite (bool_decide_eq_true_2 _ E). cbv iota.
      by destruct (_ || _).
    + rewrite (bool_decide_eq_false_2 _ E). cbv iota.
      by destruct (_ || _).
  - intros ->. apply list_filter_iff. intros k.
    rewrite (bool_decide_eq_false_2 (on_track = all)) by congruence.
    rewrite (bool_decide_eq_true_2 (on_track = on_track)) by reflexivity.
    cbv beta zeta iota delta [negb].
    rewrite <- !Qle_bool_iff.
    destruct (decide (status k = on_track)) as [E|E].
    + rewrite (bool_decide_eq_true_2 _ E). cbv iota.
      destruct (Qle_bool spi_threshold (spi k)),
        (Qle_bool cpi_threshold (cpi k)); cbn; intuition congruence.
    + rewrite (bool_decide_eq_false_2 _ E). cbv iota.
      destruct (Qle_bool spi_threshold (spi k)),
        (Qle_bool cpi_threshold (cpi k)); cbn; intuition congruence.
Qed.





Lemma determine_project_status_ahead (spi cpi : Q) :
  _determine_project_status spi cpi = status_ahead ↔ 1 <= spi ∧ 1 <= cpi.
Proof.
  destruct status_labels_distinct as (Hab & Had & Hbd).
  unfold _determine_project_status. revert Hab Had Hbd.
  generalize status_ahead, status_on_track, status_delayed.
  intros a b c Hab Had Hbd. rewrite <- !Qle_bool_iff.
  destruct (Qle_bool 1 spi), (Qle_bool 1 cpi); cbn [andb];
    try destruct (_ && _); split; try tauto; try congruence;
    intros [? ?]; congruence.
Qed.

Lemma determine_project_status_zero (spi cpi : Q) :
  spi == 0 ∨ cpi == 0 → _determine_project_status spi cpi = status_delayed.
Proof.
  unfold _determine_project_status. intros Hz.
  assert (Qle_bool 1 spi && Qle_bool 1 cpi = false) as ->.
  { apply andb_false_iff.
    destruct Hz as [Hz|Hz]; [left|right]; apply Qle_bool_false;
      rewrite Hz; apply Qlt_not_le; reflexivity. }
  assert (Qle_bool (9 # 10) spi && Qle_bool (9 # 10) cpi = false) as ->.
  { apply andb_false_iff.
    destruct Hz as [Hz|Hz]; [left|right]; apply Qle_bool_false;
      rewrite Hz; apply Qlt_not_le; reflexivity. }
  reflexivity.
Qed.

Lemma positive_spec (x : Q) : positive x = true ↔ 0 < x.
Proof.
  unfold positive. rewrite negb_true_iff, Qle_bool_false.
  split; [apply Qnot_le_lt|apply Qlt_not_le].
Qed.

Lemma positive_false (x : Q) : positive x = false ↔ x <= 0.
Proof.
  unfold positive. rewrite negb_false_iff. apply Qle_bool_iff.
Qed.

(** How the fields of a computed KPI depend on one another. *)
Lemma calculate_project_kpi_fields (project_name : pystr) (d : db) (k : kpi) :
  calculate_project_kpi project_name d = Some k →
  pv k == total_budget k * (kpi_planned_completion k / 100)
  ∧ ev k == total_budget k * (kpi_actual_completion k / 100)
  ∧ cpi k = (if positive (ac k) then ev k / ac k else 0)
  ∧ spi k = (if positive (pv k) then ev k / pv k else 0)
  ∧ cv k = ev k - ac k
  ∧ sv k = ev k - pv k
  ∧ status k = _determine_project_status (spi k) (cpi k)
  ∧ eac k = (if positive (cpi k) then total_budget k / cpi k
             else total_budget k)
  ∧ etc k = (if negb (Qle_bool (eac k) (ac k)) then eac k - ac k else 0).
Proof.
  unfold calculate_project_kpi.
  destruct (get_project_info project_name d); [|done].
  destruct (last _); [|done]. destruct (_ ≫= _); [|done].
  intros [= <-].
  cbn [pv ev ac cpi spi cv sv status eac etc total_budget
       kpi_planned_completion kpi_actual_completion].
  unfold _calculate_eac.
  repeat split; try reflexivity; field.
Qed.

(** X4: for a project with positive planned value and positive actual
    cost, the status is "ahead" exactly when neither variance is negative:
    SV >= 0 and CV >= 0. *)
Theorem kpi_ahead_iff_variances_nonnegative (project_name : pystr) (d : db)
    (k : kpi) :
  calculate_project_kpi project_name d = Some k →
  0 < pv k → 0 < ac k →
  (status k = status_ahead ↔ 0 <= sv k ∧ 0 <= cv k).
Proof.
  intros Hk Hpv Hac.
  destruct (calculate_project_kpi_fields _ _ _ Hk)
    as (_ & _ & Hcpi & Hspi & Hcv & Hsv & Hst & _).
  rewrite Hst, determine_project_status_ahead, Hcpi, Hspi, Hcv, Hsv.
  rewrite (proj2 (positive_spec _) Hpv), (proj2 (positive_spec _) Hac).
  assert (Hdiv : ∀ x y : Q, 0 < y → (1 <= x / y ↔ 0 <= x - y)).
  { intros x y Hy. split; intros H.
    - apply (Qmult_le_compat_r _ _ y) in H; [|by apply Qlt_le_weak].
      rewrite Qmult_1_l in H.
      assert (E : x / y * y == x).
      { field. intros E. rewrite E in Hy. by apply Qlt_irrefl in Hy. }
      rewrite E in H. apply (Qplus_le_l _ _ y).
      assert (E2 : x - y + y == x) by ring.
      by rewrite E2, Qplus_0_l.
    - apply Qle_shift_div_l; [done|]. rewrite Qmult_1_l.
      apply (Qplus_le_l _ _ (- y)). rewrite Qplus_opp_r. exact H. }
  by rewrite !Hdiv.
Qed.

(** X5: a project whose latest entry has no actual cost, or whose planned
    value is not positive, has CPI 0 or SPI 0 and is therefore reported as
    "delayed", whatever its progress. *)
Theorem kpi_without_cost_or_plan_is_delayed (project_name : pystr) (d : db)
    (k : kpi) :
  calculate_project_kpi project_name d = Some k →
  ac k <= 0 ∨ pv k <= 0 →
  status k = status_delayed
  ∧ (ac k <= 0 → cpi k = 0)
  ∧ (pv k <= 0 → spi k = 0 ∧ cost_variance_percent k = 0
                 ∧ schedule_variance_percent k = 0).
Proof.
  intros Hk Hz.
  destruct (calculate_project_kpi_fields _ _ _ Hk)
    as (_ & _ & Hcpi & Hspi & _ & _ & Hst & _).
  assert (Hc : ac k <= 0 → cpi k = 0).
  { intros H. by rewrite Hcpi, (proj2 (positive_false _) H). }
  assert (Hs : pv k <= 0 → spi k = 0).
  { intros H. by rewrite Hspi, (proj2 (positive_false _) H). }
  split; [|split; [exact Hc|]].
  - rewrite Hst. apply determine_project_status_zero.
    destruct Hz as [H|H]; [right; by rewrite Hc|left; by rewrite Hs].
  - intros H. split; [by apply Hs|].
    revert Hk H. unfold calculate_project_kpi.
    destruct (get_project_info project_name d); [|done].
    destruct (last _); [|done]. destruct (_ ≫= _); [|done].
    intros [= <-].
    cbn [pv cost_variance_percent schedule_variance_percent].
    intros H. by rewrite (proj2 (positive_false _) H).
Qed.


End Reports.

Lemma kpi_ahead_iff_variances_nonnegative_witness :
  ∃ k, calculate_project_kpi (py "Bridge") appended_db = Some k
       ∧ (status k = status_ahead ↔ (0 <= sv k ∧ 0 <= cv k)%Q).
Proof.
  eexists. split; [reflexivity|].
  apply (kpi_ahead_iff_variances_nonnegative (py "Bridge") appended_db);
    reflexivity.
Defined.

Lemma kpi_without_cost_or_plan_is_delayed_witness :
  ∃ k, calculate_project_kpi (py "Bridge") unspent_db = Some k
       ∧ (kpi_actual_completion k == 45)%Q
       ∧ status k = status_delayed.
Proof.
  eexists. split; [reflexivity|]. split; [reflexivity|].
  apply (kpi_without_cost_or_plan_is_delayed (py "Bridge") unspent_db);
    [reflexivity|left; discriminate].
Defined.


(** ** Progress entries: adding and deleting *)
Section ProgressEntries.




(** X9: [delete_project] deletes nothing: its second statement names a
    table [cash_flow] that the database does not have, so it returns
    [False] before the commit, and the record, the history and the KPI of
    the project are afterwards what they were. *)
Theorem delete_project_never_deletes (project_name : pystr) (d : db) :
  delete_project project_name d = (false, d)
  ∧ delete_where_project_name "cash_flow" project_name d = None
  ∧ (∃ d', delete_where_project_name "projects" project_name d = Some d'
           ∧ get_project_info project_name d' = None).
Proof.
  split; [reflexivity|]. split; [reflexivity|].
  eexists. split; [reflexivity|].
  unfold get_project_info. cbn [projects].
  replace (filter _ (filter _ _)) with (@nil record); [done|].
  symmetry. induction (projects d) as [|r l IH]; [done|].
  rewrite filter_cons.
  destruct (decide (has_name (SText project_name) r = false)) as [Hn|Hn].
  - rewrite filter_cons. destruct (decide _); [congruence|done].
  - exact IH.
Qed.

End ProgressEntries.

(** ** Categories, moves and stored records *)
Section Categories.

Lemma py_eqb_refl (a : sqlval) : py_eqb a a = true.
Proof.
  destruct a; cbn; try done; try apply Qeq_bool_refl.
  by apply bool_decide_eq_true.
Qed.

Lemma py_eqb_sym (a b : sqlval) : py_eqb a b = py_eqb b a.
Proof.
  destruct a, b; cbn; try done; try apply Qeq_bool_comm.
  unfold str_eqb. apply bool_decide_ext. split; congruence.
Qed.

Lemma py_eqb_trans (a b c : sqlval) :
  py_eqb a b = true → py_eqb b c = true → py_eqb a c = true.
Proof.
  destruct a, b, c; cbn; try done; try apply Qeq_bool_trans.
  unfold str_eqb. rewrite !bool_decide_eq_true. congruence.
Qed.

Lemma py_eqb_false_l (a b c : sqlval) :
  py_eqb a b = true → py_eqb a c = false → py_eqb b c = false.
Proof.
  intros Hab Hac. destruct (py_eqb b c) eqn:E; [|done].
  by rewrite (py_eqb_trans _ _ _ Hab E) in Hac.
Qed.

Lemma has_group_false (key : sqlval) (grouped : groups) :
  has_group key grouped = false ↔ ∀ g, g ∈ grouped → py_eqb g.1 key = false.
Proof.
  unfold has_group. induction grouped as [|g l IH]; cbn [existsb].
  - split; [intros _ g Hg; by apply elem_of_nil in Hg|done].
  - rewrite orb_false_iff, IH. split.
    + intros [Hg Hl] h Hh. apply elem_of_cons in Hh as [->|Hh]; auto.
    + intros Hall. split; [apply Hall; left|intros h Hh; apply Hall; by right].
Qed.

Lemma append_to_group_spec (key : sqlval) (project : record)
    (grouped : groups) :
  has_group key grouped = true →
  ∃ l1 k ps l2,
    grouped = l1 ++ (k, ps) :: l2 ∧ py_eqb k key = true
    ∧ append_to_group key project grouped
      = l1 ++ (k, ps ++ [project]) :: l2.
Proof.
  unfold has_group. induction grouped as [|[k ps] l IH]; cbn [existsb]; [done|].
  cbn [append_to_group fst]. destruct (py_eqb k key) eqn:E.
  - intros _. by exists [], k, ps, l.
  - cbn [orb]. intros Hl. destruct (IH Hl) as (l1 & k' & ps' & l2 & -> & Hk & ->).
    by exists ((k, ps) :: l1), k', ps', l2.
Qed.

Lemma grouped_projects_app (l1 l2 : groups) :
  grouped_projects (l1 ++ l2) = grouped_projects l1 ++ grouped_projects l2.
Proof. unfold grouped_projects. by rewrite fmap_app, concat_app. Qed.

Lemma group_step_spec (grouped : groups) (project : record) :
  well_grouped grouped →
  well_grouped (group_step grouped project)
  ∧ grouped_projects (group_step grouped project)
    ≡ₚ grouped_projects grouped ++ [project].
Proof.
  intros [Hmem Hkeys]. unfold group_step.
  remember (get_default project "parent_category_name"
              (SText (py "Uncategorized"))) as key eqn:Ekey.
  destruct (has_group key grouped) eqn:Ehas; cbn [negb].
  - destruct (append_to_group_spec key project grouped Ehas)
      as (l1 & k & ps & l2 & -> & Hk & ->).
    split; [split|].
    + intros k' ps' Hin.
      apply elem_of_app in Hin as [Hin|Hin];
        [apply Hmem, elem_of_app; by left|].
      apply elem_of_cons in Hin as [[= -> ->]|Hin];
        [|apply Hmem, elem_of_app; right; by right].
      destruct (Hmem k ps) as [Hne Hall];
        [apply elem_of_app; right; left|].
      split; [by destruct ps|].
      intros p Hp. apply elem_of_app in Hp as [Hp|Hp]; [by apply Hall|].
      apply list_elem_of_singleton in Hp as ->. by rewrite <- Ekey.
    + intros i j g h Hi Hj Hij.
      assert (Hfst : ∀ n x, (l1 ++ (k, ps ++ [project]) :: l2) !! n = Some x →
                ∃ y, (l1 ++ (k, ps) :: l2) !! n = Some y ∧ y.1 = x.1).
      { intros n x Hn. destruct (decide (n < length l1)) as [Hlt|Hge].
        - rewrite lookup_app_l in Hn |- * by done. eauto.
        - rewrite lookup_app_r in Hn |- * by lia.
          destruct (n - length l1) as [|m]; cbn in *; [|eauto].
          injection Hn as <-. eauto. }
      destruct (Hfst _ _ Hi) as (g' & Hg' & <-).
      destruct (Hfst _ _ Hj) as (h' & Hh' & <-).
      by apply (Hkeys i j).
    + rewrite !grouped_projects_app. unfold grouped_projects.
      cbn [fmap list_fmap snd concat]. solve_Permutation.
  - pose proof (proj1 (has_group_false key grouped) Ehas) as Ehas'.
    clear Ehas. rename Ehas' into Ehas.
    assert (Happ : append_to_group key project (grouped ++ [(key, [])])
                   = grouped ++ [(key, [project])]).
    { clear Hmem Hkeys Ekey.
      induction grouped as [|[k ps] l IH]; cbn [app append_to_group].
      - by rewrite py_eqb_refl.
      - assert (E : py_eqb k key = false) by (apply (Ehas (k, ps)); left).
        rewrite E, IH; [done|]. intros g Hg. apply Ehas. by right. }
    rewrite Happ. split; [split|].
    + intros k ps Hin. apply elem_of_app in Hin as [Hin|Hin]; [by apply Hmem|].
      apply list_elem_of_singleton in Hin as [= -> ->].
      split; [done|]. intros p Hp.
      apply list_elem_of_singleton in Hp as ->. rewrite <- Ekey.
      apply py_eqb_refl.
    + intros i j g h Hi Hj Hij.
      destruct (decide (i < length grouped)) as [Hil|Hil],
               (decide (j < length grouped)) as [Hjl|Hjl].
      * rewrite lookup_app_l in Hi, Hj by done. by apply (Hkeys i j).
      * rewrite lookup_app_l in Hi by done. rewrite lookup_app_r in Hj by lia.
        destruct (j - length grouped); [|done]. injection Hj as <-.
        apply Ehas. by eapply list_elem_of_lookup_2.
      * rewrite lookup_app_l in Hj by done. rewrite lookup_app_r in Hi by lia.
        destruct (i - length grouped); [|done]. injection Hi as <-.
        rewrite py_eqb_sym. apply Ehas. by eapply list_elem_of_lookup_2.
      * rewrite lookup_app_r in Hi, Hj by lia.
        apply lookup_lt_Some in Hi as Hi', Hj as Hj'.
        cbn [length] in Hi', Hj'. lia.
    + rewrite grouped_projects_app. unfold grouped_projects at 2.
      cbn [fmap list_fmap snd concat app]. done.
Qed.

Lemma group_fold (l : list record) (grouped : groups) :
  well_grouped grouped →
  well_grouped (foldl group_step grouped l)
  ∧ grouped_projects (foldl group_step grouped l)
    ≡ₚ grouped_projects grouped ++ l.
Proof.
  revert grouped. induction l as [|p l IH]; intros grouped Hw; cbn [foldl].
  - by rewrite app_nil_r.
  - destruct (group_step_spec grouped p Hw) as [Hw' Hp].
    destruct (IH _ Hw') as [Hw'' Hp'].
    split; [done|]. rewrite Hp', Hp, <- app_assoc. done.
Qed.

Lemma get_all_projects_category_key (d : db) (p : record) :
  p ∈ get_all_projects d →
  is_Some (p !! "parent_category_name").
Proof.
  unfold get_all_projects. rewrite order_by_perm.
  intros Hp. apply list_elem_of_fmap in Hp as (r & -> & _).
  unfold join_category. destruct (filter _ _); by rewrite lookup_insert_eq.
Qed.

(** X10: [get_projects_by_category] partitions the rows of
    [get_all_projects]: every row lies in exactly one group, no group is
    empty, the keys are pairwise different, and the rows of a group all
    carry the group's key as their category name.  The default key
    ['Uncategorized'] is never used, because every row has the column: a
    project without a category is grouped under [None]. *)
Theorem get_projects_by_category_partitions (d : db) :
  let grouped := get_projects_by_category d in
  grouped_projects grouped ≡ₚ get_all_projects d
  ∧ (∀ k ps, (k, ps) ∈ grouped →
       ps ≠ [] ∧ ∀ p, p ∈ ps →
         py_eqb k (cell p "parent_category_name") = true)
  ∧ (∀ i j g h, grouped !! i = Some g → grouped !! j = Some h → i ≠ j →
       py_eqb g.1 h.1 = false)
  ∧ (∀ k ps p, (k, ps) ∈ grouped → p ∈ ps →
       cell p "parent_category_name" = SNull → k = SNull).
Proof.
  cbv zeta. unfold get_projects_by_category.
  destruct (group_fold (get_all_projects d) []) as [[Hmem Hkeys] Hperm].
  { split; [intros k ps Hin; by apply elem_of_nil in Hin|].
    intros i j g h Hi. by rewrite lookup_nil in Hi. }
  cbn [grouped_projects fmap list_fmap concat app] in Hperm.
  change (concat []) with (@nil record) in Hperm. cbn [app] in Hperm.
  assert (Hcell : ∀ k ps p,
    (k, ps) ∈ foldl group_step [] (get_all_projects d) → p ∈ ps →
    py_eqb k (cell p "parent_category_name") = true).
  { intros k ps p Hin Hp. destruct (Hmem k ps Hin) as [_ Hall].
    specialize (Hall p Hp).
    assert (Hp' : p ∈ get_all_projects d).
    { rewrite <- Hperm. unfold grouped_projects.
      apply list_elem_of_In, in_concat. exists ps.
      split; [|by apply list_elem_of_In].
      apply list_elem_of_In, list_elem_of_fmap. by exists (k, ps). }
    destruct (get_all_projects_category_key d p Hp') as [v Hv].
    unfold get_default in Hall. unfold cell. by rewrite Hv in Hall |- *. }
  split; [exact Hperm|]. split; [|split; [exact Hkeys|]].
  - intros k ps Hin. split; [by apply (Hmem k ps)|].
    intros p Hp. by apply (Hcell k ps).
  - intros k ps p Hin Hp Hnull. specialize (Hcell k ps p Hin Hp).
    rewrite Hnull in Hcell. by destruct k.
Qed.


Lemma has_name_join (name : sqlval) (d : db) (r : record) :
  has_name name (join_category d r) = has_name name r.
Proof.
  unfold has_name, cell, join_category.
  destruct (filter _ _); by rewrite !lookup_insert_ne.
Qed.

Lemma has_name_moved (name : sqlval) (n : pystr) (c o : sqlval) (r : record) :
  has_name name (moved n c o r) = has_name name r.
Proof.
  unfold moved. destruct (has_name (SText n) r); [|done].
  unfold has_name, cell. by rewrite !lookup_insert_ne.
Qed.

(** X11: [update_project_parent_category] moves the rows of that name and
    no others.  When it succeeds and the new id is that of a stored
    category, every row of [get_all_projects] with the name afterwards
    carries the new id, the new display order and the name of that
    category; the rows with other names are those of before; the number of
    projects is unchanged.  It also succeeds when no project has the
    name, and then the database is what it was. *)
Theorem update_project_parent_category_moves (project_name : pystr)
    (new_id new_order : Z) (d d' : db) (category : record)
    (others : list record) :
  update_project_parent_category project_name (SInt new_id) (SInt new_order) d
  = (true, d') →
  filter (λ c, sql_eq (SInt new_id) (cell c "id") = true)
    (parent_categories d) = category :: others →
  length (get_all_projects d') = length (get_all_projects d)
  ∧ (∀ p, p ∈ get_all_projects d' →
       has_name (SText project_name) p = true →
       cell p "parent_category_id" = SInt new_id
       ∧ cell p "display_order" = SInt new_order
       ∧ cell p "parent_category_name" = cell category "category_name")
  ∧ (∀ p, has_name (SText project_name) p = false →
       p ∈ get_all_projects d' ↔ p ∈ get_all_projects d)
  ∧ ((∀ r, r ∈ projects d → has_name (SText project_name) r = false) →
     d' = d).
Proof.
  unfold update_project_parent_category.
  destruct (forallb _ _); [|done]. intros [= <-] Hcat.
  set (f := moved project_name (SInt new_id) (SInt new_order)).
  assert (Hin : ∀ p dd, parent_categories dd = parent_categories d →
            ∀ l, p ∈ order_by projects_order (join_category dd <$> l)
                 ↔ ∃ r, r ∈ l ∧ p = join_category d r).
  { intros p dd Hdd l. rewrite order_by_perm, list_elem_of_fmap.
    unfold join_category. rewrite Hdd. split; intros (r & ? & ?); eauto. }
  unfold get_all_projects. cbn [projects].
  split; [|split; [|split]].
  - by rewrite !order_by_perm, !length_fmap.
  - intros p Hp Hname. apply (Hin p) in Hp as (r' & Hr' & ->); [|done].
    apply list_elem_of_fmap in Hr' as (r & -> & Hr).
    rewrite has_name_join in Hname. unfold f in Hname |- *.
    rewrite has_name_moved in Hname. unfold moved. rewrite Hname.
    unfold join_category.
    set (r2 := <["parent_category_id" := SInt new_id]> _).
    assert (Hid : cell r2 "parent_category_id" = SInt new_id).
    { unfold cell, r2. by rewrite lookup_insert_eq. }
    rewrite Hid, Hcat. split; [|split].
    + unfold cell in Hid |- *. by rewrite !lookup_insert_ne.
    + unfold cell, r2. rewrite !lookup_insert_ne by done.
      by rewrite lookup_insert_eq.
    + unfold cell at 1. by rewrite lookup_insert_eq.
  - intros p Hname.
    rewrite (Hin p _ eq_refl), (Hin p d eq_refl).
    split.
    + intros (r' & Hr' & ->).
      apply list_elem_of_fmap in Hr' as (r & -> & Hr).
      rewrite has_name_join in Hname. unfold f in Hname |- *.
      rewrite has_name_moved in Hname. unfold moved. rewrite Hname. eauto.
    + intros (r & Hr & ->). exists r. split; [|done].
      apply list_elem_of_fmap. exists r. split; [|done].
      rewrite has_name_join in Hname. unfold f, moved. by rewrite Hname.
  - intros Hno. destruct d as [cols ps seq cats prog res files].
    cbn [projects_columns projects projects_seq parent_categories
         progress_data resources original_excel_files] in *.
    f_equal. clear Hin Hcat.
    induction ps as [|r ps IH]; [done|]. cbn [fmap list_fmap].
    rewrite IH by (intros r' Hr'; apply Hno; by right).
    unfold f at 1, moved. rewrite (Hno r) by left. done.
Qed.

Lemma lookup_new_project_row (id : Z) (p0 p1 p2 p3 p4 p5 p6 p7 p8 p9 p10 p11
    p12 p13 p14 : sqlval) :
  let row := new_project_row id
               [p0; p1; p2; p3; p4; p5; p6; p7; p8; p9; p10; p11; p12; p13;
                p14] in
  cell row "id" = SInt id
  ∧ cell row "project_name" = p0
  ∧ cell row "executing_company" = p3
  ∧ cell row "consulting_company" = p4
  ∧ cell row "start_date" = p5
  ∧ cell row "end_date" = p6
  ∧ cell row "total_budget" = p7
  ∧ cell row "project_location" = p8
  ∧ cell row "project_type" = p9
  ∧ cell row "project_description" = p10
  ∧ cell row "created_date" = p14.
Proof.
  cbv zeta. unfold cell, new_project_row, add_project_columns.
  cbn [zip zip_with list_to_map foldr].
  repeat split;
    repeat (rewrite lookup_insert_eq || rewrite lookup_insert_ne by done);
    reflexivity.
Qed.

Lemma add_project_params_shape (project_data : record)
    (params : list sqlval) :
  add_project_params project_data = Some params →
  ∃ p0 p1 p2 p3 p4 p5 p6 p7 p8 p9 p10 p11 p12 p13 p14,
    params = [p0; p1; p2; p3; p4; p5; p6; p7; p8; p9; p10; p11; p12; p13; p14]
    ∧ project_data !! "project_name" = Some p0
    ∧ project_data !! "executing_company" = Some p3
    ∧ project_data !! "consulting_company" = Some p4
    ∧ project_data !! "start_date" = Some p5
    ∧ project_data !! "end_date" = Some p6
    ∧ project_data !! "total_budget" = Some p7
    ∧ project_data !! "project_location" = Some p8
    ∧ project_data !! "project_type" = Some p9
    ∧ project_data !! "project_description" = Some p10
    ∧ project_data !! "created_date" = Some p14.
Proof.
  unfold add_project_params, getitem.
  repeat (match goal with
          | |- context [?m !! ?k ≫= _] =>
              destruct (m !! k); [|done]; cbn [mbind option_bind]
          end).
  intros [= <-]. do 15 eexists. split; [reflexivity|]. repeat split.
Qed.



Lemma filter_length_nodup {A B : Type} (f : A → B) (v : B)
    (P : A → Prop) `{!∀ x, Decision (P x)} (l : list A) :
  (∀ x, ¬ P x → f x = v) → NoDup (f <$> l) →
  length l ≤ S (length (filter P l)).
Proof.
  intros HP. induction l as [|x l IH]; [cbn; lia|].
  rewrite fmap_cons, NoDup_cons. intros [Hx Hl].
  rewrite filter_cons. destruct (decide (P x)) as [Hp|Hp].
  - cbn [length]. specialize (IH Hl). lia.
  - cbn [length]. apply le_n_S.
    assert (filter P l = l) as ->; [|done].
    clear IH. induction l as [|y l IH]; [done|].
    rewrite filter_cons. destruct (decide (P y)) as [Hy|Hy].
    + f_equal. apply IH.
      * intros Hin. apply Hx. rewrite fmap_cons. by right.
      * by apply NoDup_cons in Hl as [_ Hl].
    + exfalso. apply Hx. rewrite fmap_cons, (HP x Hp), (HP y Hy). left.
Qed.


Lemma filter_length_present {A B : Type} (f : A → B) (v : B)
    (P : A → Prop) `{!∀ x, Decision (P x)} (l : list A) :
  (∀ x, P x → f x ≠ v) → (∀ x, ¬ P x → f x = v) →
  NoDup (f <$> l) → v ∈ f <$> l →
  S (length (filter P l)) = length l.
Proof.
  intros HP HnP.
  induction l as [|x l IH]; [intros _ Hin; by apply elem_of_nil in Hin|].
  rewrite fmap_cons, NoDup_cons. intros [Hx Hl] Hin.
  rewrite filter_cons. destruct (decide (P x)) as [Hp|Hp].
  - cbn [length]. f_equal. apply IH; [done|].
    apply elem_of_cons in Hin as [Hin|Hin]; [|done].
    apply HP in Hp. congruence.
  - cbn [length]. f_equal. f_equal.
    rewrite (HnP x Hp) in Hx. clear IH Hin Hl.
    induction l as [|y l IH]; [done|].
    rewrite filter_cons. destruct (decide (P y)) as [Hy|Hy].
    + f_equal. apply IH. intros Hin. apply Hx. rewrite fmap_cons. by right.
    + exfalso. apply Hx. rewrite fmap_cons, (HnP y Hy). left.
Qed.

Lemma has_name_true (name : pystr) (r : record) :
  has_name (SText name) r = true ↔ cell r "project_name" = SText name.
Proof.
  unfold has_name. destruct (cell r "project_name"); try (split; done).
  unfold str_eqb. rewrite bool_decide_eq_true. split; congruence.
Qed.

(** X13: [add_project] keeps the project names unique.  On a table without
    duplicate names, a successful call leaves a table without duplicate
    names that holds the new name; the other names are those of before,
    and the number of projects grows by one, or stays the same when the
    name was there and its row was replaced.  A failed call changes
    nothing. *)
Theorem add_project_keeps_names_unique (project_data : record)
    (name : pystr) (d : db) :
  NoDup (project_names d) →
  project_data !! "project_name" = Some (SText name) →
  let r := add_project project_data d in
  NoDup (project_names r.2)
  ∧ (r.1 = true →
     SText name ∈ project_names r.2
     ∧ length (projects d) ≤ length (projects r.2)
     ∧ length (projects r.2) ≤ S (length (projects d))
     ∧ (SText name ∈ project_names d →
        length (projects r.2) = length (projects d))
     ∧ ∀ v, v ≠ SText name →
         v ∈ project_names r.2 ↔ v ∈ project_names d)
  ∧ (r.1 = false → r.2 = d).
Proof.
  intros Hnodup Hname. cbv zeta. unfold add_project.
  destruct (add_project_params project_data) as [params|] eqn:Ep; [|done].
  destruct (add_project_params_shape _ _ Ep)
    as (p0 & p1 & p2 & p3 & p4 & p5 & p6 & p7 & p8 & p9 & p10 & p11 & p12
        & p13 & p14 & -> & H0 & _).
  rewrite Hname in H0. injection H0 as <-.
  destruct (negb _); [done|]. cbn [lookup list_lookup fst snd].
  set (row := new_project_row _ _).
  destruct (lookup_new_project_row (projects_seq d + 1) (SText name) p1 p2 p3
              p4 p5 p6 p7 p8 p9 p10 p11 p12 p13 p14) as (_ & C0 & _).
  cbv zeta in C0. fold row in C0.
  unfold project_names in *. cbn [projects].
  set (keep := λ r : record, has_name (SText name) r = false).
  assert (Hkeep : ∀ r, keep r ↔ cell r "project_name" ≠ SText name).
  { intros r. unfold keep. rewrite <- has_name_true.
    destruct (has_name (SText name) r); split; congruence. }
  assert (Hnames : ∀ v, v ∈ (λ r, cell r "project_name") <$> filter keep (projects d)
                        ↔ v ∈ (λ r, cell r "project_name") <$> projects d
                          ∧ v ≠ SText name).
  { intros v. rewrite !list_elem_of_fmap. split.
    - intros (r & -> & Hr). apply list_elem_of_filter in Hr as [Hk Hr].
      split; [eauto|]. by apply Hkeep.
    - intros [(r & -> & Hr) Hv]. exists r. split; [done|].
      apply list_elem_of_filter. split; [by apply Hkeep|done]. }
  rewrite fmap_app. cbn [fmap list_fmap]. rewrite C0.
  split; [|split; [|done]].
  - apply NoDup_app. split; [|split].
    + eapply sublist_NoDup; [exact Hnodup|].
      apply fmap_sublist, sublist_filter.
    + intros v Hv Hin. apply Hnames in Hv as [_ Hv].
      by apply list_elem_of_singleton in Hin.
    + apply NoDup_singleton.
  - intros _. rewrite !length_app. cbn [length].
    split; [apply elem_of_app; right; left|].
    split; [|split; [|split]].
    + pose proof (filter_length_nodup (λ r, cell r "project_name")
                    (SText name) keep (projects d)) as Hlen.
      rewrite Nat.add_1_r. apply Hlen; [|exact Hnodup].
      intros r Hr. apply has_name_true.
      destruct (has_name (SText name) r) eqn:E; [done|]. by destruct Hr.
    + pose proof (length_filter keep (projects d)). lia.
    + intros Hin. rewrite Nat.add_1_r.
      apply (filter_length_present (λ r, cell r "project_name") (SText name));
        [| |exact Hnodup|exact Hin].
      * intros r Hr. by apply Hkeep.
      * intros r Hr. apply has_name_true.
        destruct (has_name (SText name) r) eqn:E; [done|]. by destruct Hr.
    + intros v Hv. rewrite elem_of_app, Hnames, list_elem_of_singleton.
      tauto.
Qed.

Lemma add_project_keeps_names_unique_witness :
  NoDup (project_names (add_project bridge appended_db).2)
  ∧ length (projects (add_project bridge appended_db).2) = 1.
Proof.
  assert (Hnd : NoDup (project_names appended_db)).
  { apply (NoDup_fmap_2_strong _); [|apply NoDup_singleton].
    intros x y Hx Hy _. apply list_elem_of_singleton in Hx, Hy. congruence. }
  destruct (add_project_keeps_names_unique bridge (py "Bridge") appended_db
              Hnd eq_refl) as (Hnodup & Hok & _).
  split; [exact Hnodup|].
  destruct (Hok eq_refl) as (_ & _ & _ & Hsame & _). apply Hsame.
  apply list_elem_of_fmap. eexists. split; [|apply list_elem_of_here].
  reflexivity.
Defined.

Lemma update_project_parent_category_moves_witness :
  length
    (get_all_projects
       (update_project_parent_category (py "Bridge") (SInt 2) (SInt 5)
          appended_db).2)
  = length (get_all_projects appended_db).
Proof.
  refine (proj1 (update_project_parent_category_moves (py "Bridge") 2 5
                   appended_db _ _ _ _ _)).
  - reflexivity.
  - vm_compute. reflexivity.
Defined.


End Categories.
